(** * SecureBank chatbot: front end, start-up script and NLU engine

    A shallow embedding of the React front end of the banking assistant
    ([App.jsx], [utils/api.js], [store/authStore.jsx], [ChatWindow.jsx],
    [IntentEntityRecognizer.jsx], [auth/Login.jsx], [auth/Register.jsx],
    [admin/Faqs.jsx], [admin/AdminDashboard.jsx]) and of its Linux
    start-up script, together with a model of the NLU and slot-filling
    engine that the front end talks to over HTTP.  The definitions come
    first, module by module; the sample data and the properties follow. *)

From Stdlib Require Import ZArith QArith Qround Qpower String Ascii List Bool Lia.
From Stdlib Require Import Sorted Permutation.
From stdpp Require Import gmap strings list.

Local Open Scope string_scope.

(** ** Text *)

Module Utf8.

(** The text of a string is kept as its UTF-8 encoding, the way the
    literals of this file are read.  Well-formed encodings stand for the
    strings of the program, and two of them are equal exactly when the
    strings are; the functions below are defined on every string all the
    same. *)
Definition bytes (s : string) : list N :=
  List.map N_of_ascii (list_ascii_of_string s).

(** A byte of the form [10xxxxxx], and its six bits. *)
Definition continuation (b : N) : bool := N.leb 128 b && N.ltb b 192.

Definition low6 (b : N) : N := (b - 128)%N.

(** Decoding: one code point per sequence of one to four bytes, a
    surrogate being read like any other three-byte code point, and
    U+FFFD for a byte that neither starts nor continues a sequence where
    it stands. *)
Fixpoint decode (l : list N) : list N :=
  match l with
  | [] => []
  | b0 :: r0 =>
      if N.ltb b0 128 then b0 :: decode r0
      else
        match r0 with
        | [] => [65533%N]
        | b1 :: r1 =>
            if N.leb 192 b0 && N.ltb b0 224 && continuation b1 then
              ((b0 - 192) * 64 + low6 b1)%N :: decode r1
            else
              match r1 with
              | [] => 65533%N :: decode r0
              | b2 :: r2 =>
                  if N.leb 224 b0 && N.ltb b0 240
                     && continuation b1 && continuation b2 then
                    ((b0 - 224) * 4096 + low6 b1 * 64 + low6 b2)%N
                      :: decode r2
                  else
                    match r2 with
                    | [] => 65533%N :: decode r0
                    | b3 :: r3 =>
                        if N.leb 240 b0 && N.ltb b0 248
                           && continuation b1 && continuation b2
                           && continuation b3 then
                          ((b0 - 240) * 262144 + low6 b1 * 4096
                           + low6 b2 * 64 + low6 b3)%N
                            :: decode r3
                        else 65533%N :: decode r0
                    end
              end
        end
  end.

(** The code points of a string. *)
Definition code_points (s : string) : list N := decode (bytes s).

(** U+00A0, the no-break space. *)
Definition nbsp : string :=
  String (ascii_of_nat 194) (String (ascii_of_nat 160) EmptyString).

End Utf8.

(** ** JavaScript values as the front end uses them *)

Module JS.

(** A value that is either [null]/[undefined] or a string: the shape of
    [token], [role], [sessionId] and [response.bot.intent]. *)
Definition nullable := option string.

(** [ToBoolean]: [null] and the empty string are falsy. *)
Definition truthy (v : nullable) : bool :=
  match v with
  | None => false
  | Some s => negb (String.eqb s "")
  end.

(** [v === lit] for a string literal. *)
Definition strict_eq (v : nullable) (lit : string) : bool :=
  match v with
  | None => false
  | Some s => String.eqb s lit
  end.

(** [s.startsWith(p)]. *)
Definition startsWith (s p : string) : bool := String.prefix p s.

(** A JavaScript string is a sequence of 16-bit code units: the code
    points of its text, one above U+FFFF as a surrogate pair. *)
Definition utf16 (c : N) : list N :=
  if N.ltb c 65536 then [c]
  else [(55296 + (c - 65536) / 1024)%N; (56320 + (c - 65536) mod 1024)%N].

Definition units (s : string) : list N :=
  List.flat_map utf16 (Utf8.code_points s).

(** The code units that [String.prototype.trim] removes and that [\s]
    matches: WhiteSpace (TAB, VT, FF, U+FEFF and the space separators
    U+0020, U+00A0, U+1680, U+2000 to U+200A, U+202F, U+205F, U+3000) and
    LineTerminator (LF, CR, U+2028, U+2029). *)
Definition is_space (u : N) : bool :=
  (N.leb 9 u && N.leb u 13) || N.eqb u 32 || N.eqb u 160 || N.eqb u 5760
  || (N.leb 8192 u && N.leb u 8202) || N.eqb u 8232 || N.eqb u 8233
  || N.eqb u 8239 || N.eqb u 8287 || N.eqb u 12288 || N.eqb u 65279.

Fixpoint trim_start (l : list N) : list N :=
  match l with
  | [] => []
  | u :: r => if is_space u then trim_start r else l
  end.

(** [s.trim()], as code units. *)
Definition trim (s : string) : list N :=
  List.rev (trim_start (List.rev (trim_start (units s)))).

(** [!s.trim()]: the trimmed string is empty. *)
Definition blank (s : string) : bool :=
  match trim s with
  | [] => true
  | _ :: _ => false
  end.

(** [s.length], the number of code units. *)
Definition length (s : string) : nat := List.length (units s).

End JS.

(** ** [App.jsx]: the route table and its guards *)

Module App.

Inductive Page :=
| Login | Register | UserDashboard | ChatWindow
| AdminDashboard | IntentEntityRecognizer.

(** What a route's [element] evaluates to: a page, or
    [<Navigate to=... />]. *)
Inductive Element :=
| Render (p : Page)
| Navigate (to : string).

(** The rows of [<Routes>], in source order. *)
Inductive Route :=
| RLogin | RRegister | RDashboard | RChat | RChatSession
| RAdminDashboard | RAdminIntentRecognizer | RRoot | RStar.

Section Guards.
(** [const { token, role } = useAuthStore();] *)
Variables token role : JS.nullable.

Definition Protected (children : Element) : Element :=
  if JS.truthy token then children else Navigate "/login".

Definition AdminOnly (children : Element) : Element :=
  if JS.truthy token && JS.strict_eq role "admin"
  then children else Navigate "/dashboard".

Definition UserOnly (children : Element) : Element :=
  if JS.truthy token && JS.strict_eq role "user"
  then children else Navigate "/login".

(** The redirect shared by [/login], [/register], [/] and [*] once a
    token is present. *)
Definition home : Element :=
  if JS.strict_eq role "admin"
  then Navigate "/admin/dashboard" else Navigate "/dashboard".

Definition element (r : Route) : Element :=
  match r with
  | RLogin => if negb (JS.truthy token) then Render Login else home
  | RRegister => if negb (JS.truthy token) then Render Register else home
  | RDashboard => UserOnly (Render UserDashboard)
  | RChat => Protected (Render ChatWindow)
  | RChatSession => Protected (Render ChatWindow)
  | RAdminDashboard => AdminOnly (Render AdminDashboard)
  | RAdminIntentRecognizer => AdminOnly (Render IntentEntityRecognizer)
  | RRoot => if JS.truthy token then home else Navigate "/login"
  | RStar => if JS.truthy token then home else Navigate "/login"
  end.
End Guards.

(** [true] when [s] is a single non-empty path segment. *)
Definition is_segment (s : string) : bool :=
  negb (String.eqb s "")
  && forallb (fun c => negb (Ascii.eqb c "/")) (list_ascii_of_string s).

(** Which row a location selects.  The static paths are matched
    literally (React Router would also accept another letter case or a
    trailing slash), [/chat/:sessionId] takes one further segment, and
    [*] catches the rest.  Every [<Navigate>] target of the table is one
    of the literal paths. *)
Definition route_of (path : string) : Route :=
  if String.eqb path "/login" then RLogin
  else if String.eqb path "/register" then RRegister
  else if String.eqb path "/dashboard" then RDashboard
  else if String.eqb path "/chat" then RChat
  else if String.eqb path "/admin/dashboard" then RAdminDashboard
  else if String.eqb path "/admin/intent-recognizer"
       then RAdminIntentRecognizer
  else if String.eqb path "/" then RRoot
  else if JS.startsWith path "/chat/"
          && is_segment (String.substring 6 (String.length path - 6) path)
       then RChatSession
  else RStar.

(** Routes whose element is wrapped in one of the three guards. *)
Definition protected (r : Route) : bool :=
  match r with
  | RDashboard | RChat | RChatSession
  | RAdminDashboard | RAdminIntentRecognizer => true
  | _ => false
  end.

Definition admin_route (r : Route) : bool :=
  match r with
  | RAdminDashboard | RAdminIntentRecognizer => true
  | _ => false
  end.

Definition admin_page (p : Page) : bool :=
  match p with
  | AdminDashboard | IntentEntityRecognizer => true
  | _ => false
  end.

(** Follow [<Navigate>] elements from a location until a page is
    rendered; [None] when [fuel] redirects did not reach one. *)
Fixpoint settle (fuel : nat) (token role : JS.nullable) (path : string)
  : option (string * Page) :=
  match fuel with
  | O => None
  | S n =>
      match element token role (route_of path) with
      | Render p => Some (path, p)
      | Navigate to => settle n token role to
      end
  end.

(** The routing claim read literally: every guard answers with the one
    redirect the sentence names. *)
Definition redirects_as_stated (token role : JS.nullable) : Prop :=
  (forall r p, element token role r = Render p -> admin_page p = true ->
     JS.truthy token = true /\ role = Some "admin") /\
  (JS.truthy token = true -> role <> Some "admin" ->
     forall r, admin_route r = true ->
       element token role r = Navigate "/dashboard") /\
  (JS.truthy token = false ->
     forall r, protected r = true ->
       element token role r = Navigate "/login").

End App.

(** ** [utils/api.js]: the response interceptor *)

Module Api.

(** The part of the browser the interceptor touches. [navigations]
    records the assignments to [window.location.href]. *)
Record Browser := {
  localStorage : gmap string string;
  pathname : string;
  navigations : list string
}.

(** An axios error; [status] is [error?.response?.status], absent when
    no response arrived. *)
Record AxiosError := {
  url : string;
  status : option Z;
  message : string
}.

Record Response := {
  resp_url : string;
  resp_status : Z;
  resp_data : string
}.

(** A settled promise. *)
Inductive Promise (A : Type) :=
| Fulfilled (a : A)
| Rejected (e : AxiosError).
Arguments Fulfilled {A} a.
Arguments Rejected {A} e.

Definition removeItem (k : string) (b : Browser) : Browser :=
  {| localStorage := delete k (localStorage b);
     pathname := pathname b;
     navigations := navigations b |}.

(** [window.location.href = to]. *)
Definition set_href (to : string) (b : Browser) : Browser :=
  {| localStorage := localStorage b;
     pathname := to;
     navigations := (navigations b ++ [to])%list |}.

Definition is_401 (e : AxiosError) : bool :=
  match status e with
  | Some n => (n =? 401)%Z
  | None => false
  end.

(** The success handler returns the response untouched. *)
Definition onFulfilled (r : Response) (b : Browser)
  : Browser * Promise Response := (b, Fulfilled r).

(** The error handler of [apiClient.interceptors.response.use]. *)
Definition onRejected (e : AxiosError) (b : Browser)
  : Browser * Promise Response :=
  let b1 :=
    if is_401 e then
      let b' := removeItem "auth-storage" b in
      if negb (JS.startsWith (pathname b') "/login")
      then set_href "/login" b' else b'
    else b in
  (b1, Rejected e).

End Api.

(** ** [ChatWindow.jsx]: the chat component's state *)

Module Chat.

(** A number received in a JSON body is an IEEE double; a finite
    double is modelled by the rational it denotes, and comparisons of
    finite doubles are comparisons of those rationals.  [None] stands
    for a missing or non-numeric field, which compares [false]. *)
Definition number := option Q.

(** The literal [0.8]: the double nearest to 8/10, which is also what a
    body containing [0.8] parses to. *)
Definition lit_0_8 : Q := 3602879701896397 # 4503599627370496.

(** [x > y] on numbers. *)
Definition gt (x : number) (y : Q) : bool :=
  match x with
  | Some q => negb (Qle_bool q y)
  | None => false
  end.

Record Entity := { label : string; value : string }.

(** [response.bot] as the component reads it. *)
Record BotMessage := {
  text : string;
  intent : JS.nullable;
  confidence : number;
  method : JS.nullable;
  entities : list Entity;
  needs_slot_filling : bool;
  pending_slots : gmap string string;
  filled_slots : gmap string string
}.

Inductive Message :=
| UserMsg (body : string)
| BotMsg (bot : BotMessage).

(** The object stored by [setConversationFlow]. *)
Record Flow := {
  flow_intent : JS.nullable;
  flow_confidence : number;
  flow_entities : list Entity
}.

(** The object stored by [setSlotFilling]. *)
Record SlotFilling := {
  sf_intent : JS.nullable;
  sf_pending_slots : gmap string string;
  sf_filled_slots : gmap string string
}.

(** The [useState] cells that [handleSendMessage] reads or writes. The
    spinner and the retry countdown are driven by timers and are left
    out. *)
Record State := {
  sessionId : JS.nullable;
  messages : list Message;
  messageText : string;
  connectionError : bool;
  conversationFlow : option Flow;
  slotFilling : option SlotFilling
}.

(** How the awaited [sendMessage] call ended. *)
Inductive Reply :=
| Answered (bot : BotMessage)
| Failed.

Definition flow_of (bot : BotMessage) : Flow :=
  {| flow_intent := intent bot;
     flow_confidence := confidence bot;
     flow_entities := entities bot |}.

Definition slots_of (bot : BotMessage) : SlotFilling :=
  {| sf_intent := intent bot;
     sf_pending_slots := pending_slots bot;
     sf_filled_slots := filled_slots bot |}.

(** [response.bot.intent && response.bot.confidence > 0.8] *)
Definition sets_context (bot : BotMessage) : bool :=
  JS.truthy (intent bot) && gt (confidence bot) lit_0_8.

(** [handleSendMessage], with the delayed append of the bot message
    applied. *)
Definition handleSendMessage (reply : Reply) (st : State) : State :=
  if JS.blank (messageText st) || negb (JS.truthy (sessionId st)) then st
  else
    let sent := (messages st ++ [UserMsg (messageText st)])%list in
    match reply with
    | Answered bot =>
        {| sessionId := sessionId st;
           messages := (sent ++ [BotMsg bot])%list;
           messageText := "";
           connectionError := connectionError st;
           conversationFlow :=
             if sets_context bot then Some (flow_of bot)
             else conversationFlow st;
           slotFilling :=
             if needs_slot_filling bot then Some (slots_of bot)
             else None |}
    | Failed =>
        {| sessionId := sessionId st;
           messages := sent;
           messageText := "";
           connectionError := true;
           conversationFlow := conversationFlow st;
           slotFilling := slotFilling st |}
    end.

(** Whether a call reaches the server at all. *)
Definition sends (st : State) : bool :=
  negb (JS.blank (messageText st) || negb (JS.truthy (sessionId st))).

(** The names listed by [renderSlotFillingPrompt]; [None] when nothing
    is rendered.  The names come in the order of the map here, in the
    browser in the order in which the reply lists them. *)
Definition renderSlotFillingPrompt (st : State) : option (list string) :=
  match slotFilling st with
  | None => None
  | Some sf =>
      let pendingSlots := (map_to_list (sf_pending_slots sf)).*1 in
      if Nat.eqb (length pendingSlots) 0 then None else Some pendingSlots
  end.

(** The context claim read literally: the context is replaced exactly
    when an intent is present and the confidence is at or above 0.8. *)
Definition context_as_stated (bot : BotMessage) (st : State) : Prop :=
  sends st = true ->
  let st' := handleSendMessage (Answered bot) st in
  let at_or_above :=
    JS.truthy (intent bot) = true /\
    exists c, confidence bot = Some c /\ (lit_0_8 <= c)%Q in
  (at_or_above -> conversationFlow st' = Some (flow_of bot)) /\
  (~ at_or_above -> conversationFlow st' = conversationFlow st).

End Chat.

(** ** [IntentEntityRecognizer.jsx]: the analysis view *)

Module Recognizer.

Record Analysis := {
  intent : string;
  confidence : Q;
  entities : list Chat.Entity;
  method : string;
  all_probabilities : list (string * Q)
}.

(** The initial [response] cell. *)
Definition empty_analysis : Analysis :=
  {| intent := ""; confidence := 0; entities := [];
     method := ""; all_probabilities := [] |}.

Record State := {
  query : string;
  response : Analysis;
  loading : bool;
  error : string
}.

(** How the awaited [analyzeQuery] call ended. *)
Inductive Reply :=
| Analysed (result : Analysis)
| Failed.

Definition handleAnalyze (reply : Reply) (st : State) : State :=
  if JS.blank (query st) then
    {| query := query st; response := response st;
       loading := loading st;
       error := "Please enter a query to analyze" |}
  else
    match reply with
    | Analysed result =>
        {| query := query st; response := result;
           loading := false; error := "" |}
    | Failed =>
        {| query := query st; response := response st;
           loading := false;
           error := "Failed to analyze query. Please try again." |}
    end.

(** Whether [analyzeQuery] is called. *)
Definition analyses (st : State) : bool := negb (JS.blank (query st)).

Definition getConfidenceColor (confidence : Q) : string :=
  if Qle_bool Chat.lit_0_8 confidence then "var(--color-success)"
  else if Qle_bool (5404319552844595 # 9007199254740992) confidence
       then "var(--color-warning)"
  else "var(--color-error)".

Record Badge := { badge_text : string; color : string; bg : string }.

Definition badges : gmap string Badge :=
  {[ "ml" := {| badge_text := "Machine Learning";
                color := "var(--color-success)";
                bg := "var(--color-bg-3)" |};
     "rule" := {| badge_text := "Rule-based";
                  color := "var(--color-warning)";
                  bg := "var(--color-bg-2)" |};
     "fallback" := {| badge_text := "Fallback";
                      color := "var(--color-info)";
                      bg := "var(--color-bg-1)" |} ]}.

(** [badges[method] || badges.fallback], for a [method] that is not the
    name of a member inherited from [Object.prototype]. *)
Definition getMethodBadge (method : string) : option Badge :=
  match badges !! method with
  | Some b => Some b
  | None => badges !! "fallback"
  end.

End Recognizer.

(** ** The Linux start-up script *)

Module Startup.

(** The commands of the script whose exit status matters. *)
Inductive Command :=
| CreateVenv | PipUpgrade | PipInstall | SpacyDownload | TrainModel
| NpmInstall | ServeNLU | ServeAPI | ServeFrontend.

(** What the script finds on the machine: the tools on the [PATH], the
    directories it tests, and the exit status of each command ([true]
    for status 0).  [cd], [source] and [mkdir -p] are taken to
    succeed. *)
Record Env := {
  python3 : bool;
  node : bool;
  npm : bool;
  venv_dir : bool;
  nlu_model_dir : bool;
  succeeds : Command -> bool
}.

(** [Aborted]: the script left with a non-zero status after running the
    logged commands.  [Running]: it reached [wait] with the three
    services launched in the background. *)
Inductive Outcome :=
| Aborted (log : list Command)
| Running (log : list Command).

(** Foreground commands under [set -e]: stop at the first failure. *)
Fixpoint foreground (env : Env) (cmds : list Command) (log : list Command)
  : list Command * bool :=
  match cmds with
  | [] => (log, true)
  | c :: rest =>
      if succeeds env c then foreground env rest (log ++ [c])%list
      else ((log ++ [c])%list, false)
  end.

(** The set-up commands in script order; the two conditional steps
    appear only when their directory is missing. *)
Definition setup (env : Env) : list Command :=
  ((if venv_dir env then [] else [CreateVenv])
   ++ [PipUpgrade; PipInstall; SpacyDownload]
   ++ (if nlu_model_dir env then [] else [TrainModel])
   ++ [NpmInstall])%list.

(** Commands started with [&]: their status is never inspected. *)
Definition background : list Command := [ServeNLU; ServeAPI; ServeFrontend].

Definition run (env : Env) : Outcome :=
  if negb (python3 env) then Aborted []
  else if negb (node env) then Aborted []
  else if negb (npm env) then Aborted []
  else
    match foreground env (setup env) [] with
    | (log, false) => Aborted log
    | (log, true) => Running (log ++ background)%list
    end.

#[global] Instance Command_eq_dec : EqDecision Command.
Proof. solve_decision. Defined.

(** Whether the script got as far as starting command [c]. *)
Definition launched (o : Outcome) (c : Command) : bool :=
  match o with
  | Aborted _ => false
  | Running log => bool_decide (c ∈ log)
  end.

(** The same machine with other exit statuses. *)
Definition with_status (env : Env) (f : Command -> bool) : Env :=
  {| python3 := python3 env; node := node env; npm := npm env;
     venv_dir := venv_dir env; nlu_model_dir := nlu_model_dir env;
     succeeds := f |}.

End Startup.

(** ** The NLU and slot-filling engine behind [/chat/analyze] and
       [/chat/message] *)

Module Engine.

(** Modelled from the spec: the closed set of entity types of section 3
    (the engine, [backend/nlu_service.py], is started by the start-up
    script and called through [utils/api.js], but its source is not
    among the files at hand). *)
Inductive EntityType :=
| AMOUNT | ACCOUNT_NUMBER | CARD_TYPE | ACCOUNT_TYPE | LOAN_TYPE
| PERSON_NAME.

(** Modelled from the spec: entity types are told apart by name, which
    is how a slot's required type is compared with an entity's label. *)
#[global] Instance EntityType_eq_dec : EqDecision EntityType.
Proof. solve_decision. Defined.

(** Modelled from the spec: an [Entity] of section 3, without the
    optional span. *)
Record Entity := { label : EntityType; value : string }.

(** Modelled from the spec: the [method] enumeration of section 3. *)
Inductive Method := ml | rule | fallback.

(** Modelled from the spec: the [ClassificationResult] of section 3;
    confidences and probabilities are exact rationals. *)
Record ClassificationResult := {
  intent : string;
  confidence : Q;
  method : Method;
  all_probabilities : list (string * Q)
}.

(** *** Text normalizer (section 4.1) *)

(** Modelled from the spec: lower-casing of the normalizer (section
    4.1), on ASCII letters. *)
Definition lower (c : ascii) : ascii :=
  let n := nat_of_ascii c in
  if Nat.leb 65 n && Nat.leb n 90 then ascii_of_nat (n + 32) else c.

(** Modelled from the spec: the digits that make up the "digit runs" and
    "numeric sequences" of section 4.5. *)
Definition is_digit (c : ascii) : bool :=
  let n := nat_of_ascii c in Nat.leb 48 n && Nat.leb n 57.

(** Modelled from the spec: the characters of a "lowercase alphanumeric
    token" (section 4.1). *)
Definition is_alnum (c : ascii) : bool :=
  let n := nat_of_ascii c in
  is_digit c || (Nat.leb 97 n && Nat.leb n 122).

(** Modelled from the spec: the token read so far, if any, as the
    tokenizer of section 4.1 emits it. *)
Definition flush (cur : string) : list string :=
  if String.eqb cur "" then [] else [cur].

(** Modelled from the spec: the tokenizer of section 4.1; [cur] is the
    token being read.  Every character that is not a letter or a digit
    (punctuation, white space, the bytes of a currency symbol) ends the
    current token and is dropped. *)
Fixpoint tokens (cur : string) (s : string) : list string :=
  match s with
  | EmptyString => flush cur
  | String c r =>
      let c' := lower c in
      if is_alnum c' then tokens (cur ++ String c' EmptyString) r
      else (flush cur ++ tokens "" r)%list
  end.

(** Modelled from the spec: the Text Normalizer of section 4.1. *)
Definition normalize (utterance : string) : list string :=
  tokens "" utterance.

(** Modelled from the spec: white space, the code points with the
    Unicode property White_Space (U+0009 to U+000D, U+0020, U+0085,
    U+00A0, U+1680, U+2000 to U+200A, U+2028, U+2029, U+202F, U+205F and
    U+3000). *)
Definition white_space (c : N) : bool :=
  (N.leb 9 c && N.leb c 13) || N.eqb c 32 || N.eqb c 133 || N.eqb c 160
  || N.eqb c 5760 || (N.leb 8192 c && N.leb c 8202) || N.eqb c 8232
  || N.eqb c 8233 || N.eqb c 8239 || N.eqb c 8287 || N.eqb c 12288.

(** Modelled from the spec: the input-error test of section 7, an
    utterance that is empty or holds white space only. *)
Definition whitespace_only (utterance : string) : bool :=
  forallb white_space (Utf8.code_points utterance).

(** *** Feature extractor and linear classifier (sections 4.2, 4.3) *)

(** Modelled from the spec: the trained artifact of section 6, a
    vocabulary of terms with their inverse document frequencies and,
    per intent, a bias and one weight per term. *)
Record Model := {
  vocabulary : list (string * Q);
  classes : list (string * (Q * list Q))
}.

(** Modelled from the spec: the bigrams of section 4.2, two neighbouring
    tokens joined by a space. *)
Fixpoint bigrams (toks : list string) : list string :=
  match toks with
  | a :: (b :: _) as rest => (a ++ " " ++ b) :: bigrams rest
  | _ => []
  end.

(** Modelled from the spec: the term frequency of section 4.2. *)
Definition occurrences (term : string) (terms : list string) : nat :=
  length (List.filter (String.eqb term) terms).

(** Modelled from the spec: the Feature Extractor of section 4.2, term
    frequency times inverse document frequency over unigrams and
    bigrams; a term outside the vocabulary has no coordinate. *)
Definition features (m : Model) (toks : list string) : list Q :=
  let terms := (toks ++ bigrams toks)%list in
  List.map (fun entry =>
         (inject_Z (Z.of_nat (occurrences (fst entry) terms))
          * snd entry)%Q)
      (vocabulary m).

(** Modelled from the spec: the inner product of the linear model of
    section 4.3. *)
Fixpoint dot (ws xs : list Q) : Q :=
  match ws, xs with
  | w :: ws', x :: xs' => (w * x + dot ws' xs')%Q
  | _, _ => 0%Q
  end.

(** Modelled from the spec: the linear score of one intent, bias plus
    weighted features (section 4.3). *)
Definition score (row : Q * list Q) (xs : list Q) : Q :=
  (fst row + dot (snd row) xs)%Q.

(** Modelled from the spec: the sum that section 3 requires to be 1 for
    [all_probabilities]. *)
Definition total (qs : list Q) : Q := fold_right Qplus 0%Q qs.

(** Modelled from the spec: the fixed intent set of section 3, the
    intents the model was trained for. *)
Definition intents (m : Model) : list string := List.map fst (classes m).

Section Classifier.
(** Modelled from the spec: the exponential of the logistic model of
    section 4.3, left open; the engine computes it on floating-point
    numbers, here it is any function on the rationals. *)
Variable exp : Q -> Q.

(** Modelled from the spec: the normalised exponential of a
    multinomial logistic regression (section 4.3). *)
Definition softmax (zs : list Q) : list Q :=
  let es := List.map exp zs in
  List.map (fun e => (e / total es)%Q) es.

(** Modelled from the spec: the ML Intent Classifier of section 4.3,
    a probability per intent. *)
Definition predict_proba (m : Model) (toks : list string)
  : list (string * Q) :=
  let xs := features m toks in
  combine (intents m)
          (softmax (List.map (fun c => score (snd c) xs) (classes m))).
End Classifier.

(** Modelled from the spec: the "ML top confidence" of section 4.6, the
    entry with the largest probability; the earliest one on a tie. *)
Fixpoint top (ps : list (string * Q)) : option (string * Q) :=
  match ps with
  | [] => None
  | p :: rest =>
      match top rest with
      | None => Some p
      | Some q => if Qle_bool (snd q) (snd p) then Some p else Some q
      end
  end.

(** Modelled from the spec: what section 3 asks of
    [all_probabilities], one probability per intent of the fixed set, each
    in [0,1], adding up to 1. *)
Definition distribution (names : list string) (ps : list (string * Q))
  : Prop :=
  List.map fst ps = names /\
  Forall (fun p => (0 <= snd p)%Q /\ (snd p <= 1)%Q) ps /\
  (total (List.map snd ps) == 1)%Q.

(** *** Rule matcher (section 4.4) *)

(** Modelled from the spec: one rule of section 4.4, the phrases that
    select an intent. *)
Record Rule := { phrases : list (list string); rule_intent : string }.

(** Modelled from the spec: a phrase read at the front of the token
    sequence (section 4.4). *)
Fixpoint starts_with (phrase toks : list string) : bool :=
  match phrase, toks with
  | [], _ => true
  | _ :: _, [] => false
  | p :: phrase', t :: toks' => String.eqb p t && starts_with phrase' toks'
  end.

(** Modelled from the spec: the "keyword/phrase membership test" of
    section 4.4. *)
Fixpoint contains_phrase (phrase toks : list string) : bool :=
  starts_with phrase toks ||
  match toks with
  | [] => false
  | _ :: toks' => contains_phrase phrase toks'
  end.

(** Modelled from the spec: a rule matches when one of its phrases
    occurs (section 4.4); also used for the cancel phrases of section
    4.7. *)
Definition mentions (phs : list (list string)) (toks : list string) : bool :=
  existsb (fun ph => contains_phrase ph toks) phs.

(** Modelled from the spec: the Rule-Based Intent Matcher of section
    4.4; the first matching rule wins and [None] is the "no match"
    sentinel. *)
Definition rule_match (rules : list Rule) (toks : list string)
  : option string :=
  rule_intent <$> List.find (fun r => mentions (phrases r) toks) rules.

(** *** Configuration (sections 3 and 6) *)

(** Modelled from the spec: one entry of an intent's slot schema
    (section 3). *)
Record SlotSpec := {
  slot_name : string;
  slot_type : EntityType;
  prompt : string;
  optional : bool
}.

(** Modelled from the spec: the static configuration of section 6. *)
Record Config := {
  threshold : Q;
  rule_confidence : Q;
  override_margin : Q;
  unclear_intent : string;
  rules : list Rule;
  schema : gmap string (list SlotSpec);
  cancel_phrases : list (list string);
  min_account_digits : nat;
  card_types : list string;
  account_types : list string;
  loan_types : list string;
  ttl : nat
}.

(** *** Entity extractor (section 4.5) *)

(** Modelled from the spec: a "digit run" of section 4.5. *)
Definition all_digits (t : string) : bool :=
  negb (String.eqb t "") && forallb is_digit (list_ascii_of_string t).

(** Modelled from the spec: the "closed-vocabulary lookup" of section
    4.5. *)
Definition member (t : string) (l : list string) : bool :=
  existsb (String.eqb t) l.

(** Modelled from the spec: the recognizers of section 4.5 applied to
    one token.  A digit run of the configured minimum length is an
    account number and a shorter one an amount; the three vocabularies
    are looked up; no recognizer for person names is modelled. *)
Definition recognise (cfg : Config) (t : string) : list Entity :=
  if all_digits t then
    if Nat.leb (min_account_digits cfg) (String.length t)
    then [ {| label := ACCOUNT_NUMBER; value := t |} ]
    else [ {| label := AMOUNT; value := t |} ]
  else if member t (card_types cfg)
    then [ {| label := CARD_TYPE; value := t |} ]
  else if member t (account_types cfg)
    then [ {| label := ACCOUNT_TYPE; value := t |} ]
  else if member t (loan_types cfg)
    then [ {| label := LOAN_TYPE; value := t |} ]
  else [].

(** Modelled from the spec: the Entity Extractor of section 4.5. *)
Definition extract_entities (cfg : Config) (utterance : string)
  : list Entity :=
  flat_map (recognise cfg) (normalize utterance).

(** *** Decision arbiter (section 4.6) *)

(** Modelled from the spec: the Decision Arbiter of section 4.6. *)
Definition arbitrate (cfg : Config) (from_ml : ClassificationResult)
    (rule_hit : option string) (thr : Q) : ClassificationResult :=
  if Qle_bool thr (confidence from_ml) then
    {| intent := intent from_ml;
       confidence := confidence from_ml;
       method := ml;
       all_probabilities := all_probabilities from_ml |}
  else
    match rule_hit with
    | Some i =>
        {| intent := i;
           confidence := rule_confidence cfg;
           method := rule;
           all_probabilities := all_probabilities from_ml |}
    | None =>
        {| intent := unclear_intent cfg;
           confidence := 0;
           method := fallback;
           all_probabilities := all_probabilities from_ml |}
    end.

(** *** Initialisation (sections 4.3 and 7) *)

(** Modelled from the spec: what initialisation finds where the
    trained artifact should be. *)
Inductive Artifact :=
| Missing
| Unreadable
| Stored (m : Model).

(** Modelled from the spec: why start-up failed; [ModelUnavailable] is
    the fatal condition of section 7. *)
Inductive InitError := ModelUnavailable | BadConfiguration.

(** Modelled from the spec: a loaded engine, immutable after start-up
    (section 5). *)
Record Engine := { config : Config; model : Model }.

(** Modelled from the spec: the checks made when the artifact is
    loaded, at least one intent and one weight per vocabulary term. *)
Definition valid_model (m : Model) : bool :=
  negb (Nat.eqb (length (classes m)) 0)
  && forallb (fun c => Nat.eqb (length (snd (snd c)))
                                (length (vocabulary m)))
             (classes m).

(** Modelled from the spec: confidences are scores in [0,1] (glossary),
    so the threshold and the rule confidence must be. *)
Definition valid_config (cfg : Config) : bool :=
  Qle_bool 0 (threshold cfg) && Qle_bool (threshold cfg) 1
  && Qle_bool 0 (rule_confidence cfg) && Qle_bool (rule_confidence cfg) 1
  && Qle_bool 0 (override_margin cfg).

(** Modelled from the spec: loading the artifact (section 7, "model
    unavailable"). *)
Definition load (a : Artifact) : option Model :=
  match a with
  | Stored m => if valid_model m then Some m else None
  | Missing | Unreadable => None
  end.

(** Modelled from the spec: engine start-up. *)
Definition initialize (cfg : Config) (a : Artifact) : Engine + InitError :=
  match load a with
  | None => inr ModelUnavailable
  | Some m =>
      if valid_config cfg then inl {| config := cfg; model := m |}
      else inr BadConfiguration
  end.

(** *** Classification (sections 4.6, 6 and 7) *)

(** Modelled from the spec: the same probability for every intent, the
    distribution of the input-error result, for which no classifier
    ran. *)
Definition uniform (names : list string) : list (string * Q) :=
  List.map (fun i => (i, (1 / inject_Z (Z.of_nat (length names)))%Q)) names.

(** Modelled from the spec: the lowest-confidence fallback result
    returned for an input error (section 7). *)
Definition input_error_result (e : Engine) : ClassificationResult :=
  {| intent := unclear_intent (config e);
     confidence := 0;
     method := fallback;
     all_probabilities := uniform (intents (model e)) |}.

Section Serving.
(** Modelled from the spec: the exponential of the classifier, as in
    [softmax]. *)
Variable exp : Q -> Q.

(** Modelled from the spec: the ML path's own result, the most
    probable intent and the whole distribution. *)
Definition ml_classify (e : Engine) (toks : list string)
  : ClassificationResult :=
  let ps := predict_proba exp (model e) toks in
  match top ps with
  | Some (i, c) =>
      {| intent := i; confidence := c; method := ml;
         all_probabilities := ps |}
  | None =>
      {| intent := unclear_intent (config e); confidence := 0;
         method := ml; all_probabilities := ps |}
  end.

(** Modelled from the spec: the two classifier paths of section 2,
    which an input error skips: [None] on an empty or
    white-space-only utterance, otherwise the ML result and the rule
    matcher's answer. *)
Definition stages (e : Engine) (utterance : string)
  : option (ClassificationResult * option string) :=
  if whitespace_only utterance then None
  else
    let toks := normalize utterance in
    Some (ml_classify e toks, rule_match (rules (config e)) toks).

(** Modelled from the spec: [classify] of section 6. *)
Definition classify (e : Engine) (utterance : string)
  : ClassificationResult :=
  match stages e utterance with
  | None => input_error_result e
  | Some (from_ml, rule_hit) =>
      arbitrate (config e) from_ml rule_hit (threshold (config e))
  end.


End Serving.

(** *** Slot-filling dialogue manager (section 4.7) *)

(** Modelled from the spec: the four states of section 4.7. *)
Inductive Status := IDLE | AWAITING_SLOTS | COMPLETE | CANCELLED.

(** Modelled from the spec: the states of section 4.7 are told apart by
    name. *)
#[global] Instance Status_eq_dec : EqDecision Status.
Proof. solve_decision. Defined.

(** Modelled from the spec: the [SlotFillingState] of section 3, with
    the state of section 4.7 kept as a field. *)
Record SlotFillingState := {
  status : Status;
  active_intent : option string;
  filled_slots : gmap string string;
  pending_slots : gmap string string;
  turn_count : nat;
  last_updated : nat
}.

(** Modelled from the spec: the empty, inactive state. *)
Definition idle : SlotFillingState :=
  {| status := IDLE; active_intent := None;
     filled_slots := ∅; pending_slots := ∅;
     turn_count := 0; last_updated := 0 |}.

(** Modelled from the spec: the required (non-optional) entries of an
    intent's schema, in schema order. *)
Definition required (cfg : Config) (i : string) : list SlotSpec :=
  List.filter (fun s => negb (optional s)) (default [] (schema cfg !! i)).

(** Modelled from the spec: the required-slot set of an intent. *)
Definition required_slots (cfg : Config) (i : string) : gset string :=
  list_to_set (slot_name <$> required cfg i).

(** Modelled from the spec: the prompts of all required slots, the
    pending map before anything is filled. *)
Definition all_pending (cfg : Config) (i : string) : gmap string string :=
  list_to_map ((fun s => (slot_name s, prompt s)) <$> required cfg i).

(** Modelled from the spec: the first pending slot, in schema order,
    that asks for entity type [t]. *)
Definition slot_for (cfg : Config) (i : string)
    (pending : gmap string string) (t : EntityType) : option string :=
  slot_name <$>
    List.find (fun s => bool_decide (slot_type s = t)
                        && bool_decide (is_Some (pending !! slot_name s)))
              (required cfg i).

(** Modelled from the spec: one entity is matched against the pending
    slots by type; a satisfied slot moves from pending to filled. *)
Definition fill_one (cfg : Config) (i : string)
    (fp : gmap string string * gmap string string) (en : Entity)
  : gmap string string * gmap string string :=
  match slot_for cfg i (snd fp) (label en) with
  | Some n => (<[n := value en]> (fst fp), delete n (snd fp))
  | None => fp
  end.

(** Modelled from the spec: merging the entities of one utterance. *)
Definition merge (cfg : Config) (i : string) (ents : list Entity)
    (fp : gmap string string * gmap string string)
  : gmap string string * gmap string string :=
  fold_left (fill_one cfg i) ents fp.

(** Modelled from the spec: the state after a merge, COMPLETE when
    nothing is pending. *)
Definition after_merge (i : string) (turns now : nat)
    (fp : gmap string string * gmap string string) : SlotFillingState :=
  {| status := if decide (snd fp = ∅) then COMPLETE else AWAITING_SLOTS;
     active_intent := Some i;
     filled_slots := fst fp;
     pending_slots := snd fp;
     turn_count := turns;
     last_updated := now |}.

(** Modelled from the spec: transition 1, a new fill started from the
    triggering utterance's entities. *)
Definition start (cfg : Config) (cls : ClassificationResult)
    (ents : list Entity) (now : nat) : SlotFillingState :=
  let i := intent cls in
  after_merge i 1 now (merge cfg i ents (∅, all_pending cfg i)).

(** Modelled from the spec: the "high-confidence intent" of transition
    1, a confidence that reaches the threshold. *)
Definition high_confidence (cfg : Config) (cls : ClassificationResult)
  : bool :=
  Qle_bool (threshold cfg) (confidence cls).

(** Modelled from the spec: transition 3, a different intent whose
    confidence exceeds the threshold by the margin. *)
Definition overrides (cfg : Config) (active : string)
    (cls : ClassificationResult) : bool :=
  negb (String.eqb (intent cls) active)
  && Qle_bool (threshold cfg + override_margin cfg) (confidence cls).

(** Modelled from the spec: the aborted state of transition 3. *)
Definition cancelled (now : nat) : SlotFillingState :=
  {| status := CANCELLED; active_intent := None;
     filled_slots := ∅; pending_slots := ∅;
     turn_count := 0; last_updated := now |}.

(** Modelled from the spec: one utterance handled by the manager
    (transitions 1 to 3).  While slots are pending the active intent
    stays authoritative unless the user cancels or a different intent
    overrides it, in which case the pending fill is discarded and the
    new intent starts. *)
Definition step (cfg : Config) (st : SlotFillingState)
    (cls : ClassificationResult) (ents : list Entity) (cancel : bool)
    (now : nat) : SlotFillingState :=
  match status st, active_intent st with
  | AWAITING_SLOTS, Some i =>
      if cancel then cancelled now
      else if overrides cfg i cls then start cfg cls ents now
      else after_merge i (S (turn_count st)) now
             (merge cfg i ents (filled_slots st, pending_slots st))
  | _, _ =>
      if high_confidence cfg cls then start cfg cls ents now else idle
  end.

(** Modelled from the spec: transition 4, the completed request is
    handed over and the state reset. *)
Definition consume (st : SlotFillingState)
  : option (string * gmap string string) * SlotFillingState :=
  match status st, active_intent st with
  | COMPLETE, Some i => (Some (i, filled_slots st), idle)
  | _, _ => (None, st)
  end.

(** Modelled from the spec: transition 5, the silent reset of a session
    whose time to live has elapsed. *)
Definition expire (cfg : Config) (st : SlotFillingState) (now : nat)
  : SlotFillingState :=
  if Nat.ltb (last_updated st + ttl cfg) now then idle else st.

(** Modelled from the spec: the states a session can be in. *)
Inductive reachable (cfg : Config) : SlotFillingState -> Prop :=
| reach_idle : reachable cfg idle
| reach_step st cls ents cancel now :
    reachable cfg st -> reachable cfg (step cfg st cls ents cancel now)
| reach_consume st :
    reachable cfg st -> reachable cfg (snd (consume st))
| reach_expire st now :
    reachable cfg st -> reachable cfg (expire cfg st now).

(** Modelled from the spec: the invariant of section 3 on the two slot
    maps, no slot is both filled and pending, and together they are the
    required-slot set of intent [i]. *)
Definition partitioned (cfg : Config) (i : string)
    (filled pending : gmap string string) : Prop :=
  dom filled ## dom pending /\
  dom filled ∪ dom pending = required_slots cfg i.

(** Modelled from the spec: the invariant of section 3 on a whole
    state; with an active intent the maps are partitioned and the status
    says whether anything is pending, without one both maps are empty. *)
Definition well_formed (cfg : Config) (st : SlotFillingState) : Prop :=
  match active_intent st with
  | Some i =>
      partitioned cfg i (filled_slots st) (pending_slots st) /\
      (pending_slots st = ∅ <-> status st = COMPLETE) /\
      (pending_slots st <> ∅ <-> status st = AWAITING_SLOTS)
  | None =>
      filled_slots st = ∅ /\ pending_slots st = ∅ /\
      (status st = IDLE \/ status st = CANCELLED)
  end.

(** *** Session context store and [processTurn] (sections 4.8, 6) *)

(** Modelled from the spec: [get] of section 4.8; an unknown session is
    a fresh idle one (section 7). *)
Definition get (store : gmap string SlotFillingState) (sid : string)
  : SlotFillingState :=
  default idle (store !! sid).

(** Modelled from the spec: [put] of section 4.8. *)
Definition put (sid : string) (st : SlotFillingState)
    (store : gmap string SlotFillingState)
  : gmap string SlotFillingState :=
  <[sid := st]> store.

(** Modelled from the spec: the reply directive of section 6. *)
Inductive Directive :=
| Prompt (slot : string)
| HandOff
| Abandoned
| NotUnderstood.

(** Modelled from the spec: the structured turn result of section 6. *)
Record TurnResult := {
  reply_directive : Directive;
  classification : ClassificationResult;
  completed_intent : option string;
  handed_slots : gmap string string;
  pending_prompt : option string
}.

(** Modelled from the spec: the first slot still pending, in schema
    order, with its prompt. *)
Definition next_prompt (cfg : Config) (st : SlotFillingState)
  : option (string * string) :=
  match active_intent st with
  | Some i =>
      (fun s => (slot_name s, prompt s)) <$>
        List.find (fun s => bool_decide
                              (is_Some (pending_slots st !! slot_name s)))
                  (required cfg i)
  | None => None
  end.


Section Turns.
(** Modelled from the spec: the exponential of the classifier, as in
    [softmax]. *)
Variable exp : Q -> Q.

(** Modelled from the spec: [processTurn] of section 6.  An input
    error is answered at once and leaves the store alone; otherwise
    the session's state is read (after expiry), stepped, and written
    back, a COMPLETE state being handed over and reset. *)
Definition processTurn (e : Engine)
    (store : gmap string SlotFillingState)
    (sid utterance : string) (now : nat)
  : gmap string SlotFillingState * TurnResult :=
  if whitespace_only utterance then
    (store,
     {| reply_directive := NotUnderstood;
        classification := input_error_result e;
        completed_intent := None;
        handed_slots := ∅;
        pending_prompt := None |})
  else
    let cfg := config e in
    let cls := classify exp e utterance in
    let st := expire cfg (get store sid) now in
    let st' :=
      step cfg st cls (extract_entities cfg utterance)
           (mentions (cancel_phrases cfg) (normalize utterance)) now in
    match status st' with
    | COMPLETE =>
        (put sid (snd (consume st')) store,
         {| reply_directive := HandOff;
            classification := cls;
            completed_intent := fst <$> fst (consume st');
            handed_slots := filled_slots st';
            pending_prompt := None |})
    | AWAITING_SLOTS =>
        (put sid st' store,
         {| reply_directive :=
              match next_prompt cfg st' with
              | Some (n, _) => Prompt n
              | None => NotUnderstood
              end;
            classification := cls;
            completed_intent := None;
            handed_slots := ∅;
            pending_prompt := snd <$> next_prompt cfg st' |})
    | CANCELLED =>
        (put sid idle store,
         {| reply_directive := Abandoned;
            classification := cls;
            completed_intent := None;
            handed_slots := ∅;
            pending_prompt := None |})
    | IDLE =>
        (put sid idle store,
         {| reply_directive := NotUnderstood;
            classification := cls;
            completed_intent := None;
            handed_slots := ∅;
            pending_prompt := None |})
    end.


End Turns.

(** *** A small deployment *)

(** Modelled from the spec: one exponential with rational values,
    powers of two on the integer part, for running the model. *)
Definition exp2 (x : Q) : Q := (2 ^ Qfloor x)%Q.

(** Modelled from the spec: the schema of [transfer] in the scenarios of
    section 8, an amount and an account number. *)
Definition transfer_slots : list SlotSpec :=
  [ {| slot_name := "amount"; slot_type := AMOUNT;
       prompt := "How much would you like to transfer?";
       optional := false |};
    {| slot_name := "account_number"; slot_type := ACCOUNT_NUMBER;
       prompt := "Which account should receive the money?";
       optional := false |} ].

(** Modelled from the spec: a schema for [card_block], the card type. *)
Definition card_block_slots : list SlotSpec :=
  [ {| slot_name := "card_type"; slot_type := CARD_TYPE;
       prompt := "Which card should be blocked?";
       optional := false |} ].

(** Modelled from the spec: a configuration with the default threshold
    0.8 and the schemas of the scenarios in section 8. *)
Definition demo_config : Config :=
  {| threshold := 8 # 10;
     rule_confidence := 6 # 10;
     override_margin := 1 # 10;
     unclear_intent := "unclear";
     rules :=
       [ {| phrases := [["balance"]]; rule_intent := "balance_inquiry" |};
         {| phrases := [["transfer"]; ["send"; "money"]];
            rule_intent := "transfer" |};
         {| phrases := [["block"]]; rule_intent := "card_block" |} ];
     schema :=
       {[ "balance_inquiry" := [];
          "transfer" := transfer_slots;
          "card_block" := card_block_slots ]};
     cancel_phrases := [["cancel"]; ["never"; "mind"]];
     min_account_digits := 8;
     card_types := ["credit"; "debit"; "atm"];
     account_types := ["savings"; "current"];
     loan_types := ["home"; "car"; "personal"];
     ttl := 600 |}.

(** Modelled from the spec: a trained artifact in the format of section
    6, three intents over four terms. *)
Definition demo_model : Model :=
  {| vocabulary := [("balance", 1%Q); ("transfer", 1%Q);
                    ("block", 1%Q); ("transfer money", 1%Q)];
     classes :=
       [ ("balance_inquiry", (0%Q, [4%Q; 0%Q; 0%Q; 0%Q]));
         ("transfer", (0%Q, [0%Q; 4%Q; 0%Q; 2%Q]));
         ("card_block", (0%Q, [0%Q; 0%Q; 4%Q; 0%Q])) ] |}.

(** Modelled from the spec: the engine started from that configuration
    and model. *)
Definition demo_engine : Engine :=
  {| config := demo_config; model := demo_model |}.

End Engine.


(** ** [store/authStore.jsx]: the persisted session *)

Module Store.

(** The five data fields of the store. *)
Record Auth := {
  token : JS.nullable;
  role : JS.nullable;
  userId : JS.nullable;
  name : JS.nullable;
  email : JS.nullable
}.

(** The initial state, all [null]. *)
Definition initial : Auth :=
  {| token := None; role := None; userId := None;
     name := None; email := None |}.

(** [setAuth: ({ token, role, userId, name, email }) => set({ ... })] *)
Definition setAuth (a : Auth) (s : Auth) : Auth :=
  {| token := token a; role := role a; userId := userId a;
     name := name a; email := email a |}.

Definition clearAuth (s : Auth) : Auth := initial.

(** [updateProfile: ({ name, email }) => set((state) => ({ ...state,
    name, email }))] *)
Definition updateProfile (n e : JS.nullable) (s : Auth) : Auth :=
  {| token := token s; role := role s; userId := userId s;
     name := n; email := e |}.

(** The [partialize] option of [persist]. *)
Definition partialize (s : Auth) : Auth :=
  {| token := token s; role := role s; userId := userId s;
     name := name s; email := email s |}.

(** [localStorage.setItem(k, v)]. *)
Definition setItem (k v : string) (b : Api.Browser) : Api.Browser :=
  {| Api.localStorage := <[k := v]> (Api.localStorage b);
     Api.pathname := Api.pathname b;
     Api.navigations := Api.navigations b |}.

Section Persist.
(** [JSON.stringify] of the object that [persist] stores, the
    partialized state under [state]. *)
Variable stringify : Auth -> string.

(** What [persist] does after every [set]: the entry named
    [auth-storage] is rewritten. *)
Definition persist (s : Auth) (b : Api.Browser) : Api.Browser :=
  setItem "auth-storage" (stringify (partialize s)) b.
End Persist.

End Store.

(** ** [utils/api.js]: the request interceptor *)

Module Request.

Record Config := {
  method : string;
  url : string;
  headers : gmap string string
}.

Section Interceptor.
(** [JSON.parse(raw)] followed by [data?.state?.token]: [None] when
    parsing throws, [Some None] when the parsed value has no token. *)
Variable read_token : string -> option JS.nullable.

(** The first handler of [apiClient.interceptors.request.use]; a parse
    error is caught and the configuration returned as it came. *)
Definition onRequest (b : Api.Browser) (config : Config) : Config :=
  match Api.localStorage b !! "auth-storage" with
  | Some raw =>
      if String.eqb raw "" then config
      else
        match read_token raw with
        | Some t =>
            if JS.truthy t then
              {| method := method config;
                 url := url config;
                 headers :=
                   <["Authorization" := "Bearer " ++ default "" t]>
                     (headers config) |}
            else config
        | None => config
        end
  | None => config
  end.
End Interceptor.

End Request.

(** ** [auth/Login.jsx] and [auth/login.jsx]: signing in *)

Module Login.

(** [response.user]. *)
Record User := {
  user_role : JS.nullable;
  user_id : JS.nullable;
  user_name : JS.nullable;
  user_email : JS.nullable
}.

(** A rejected [login]: [err?.response?.data?.message] and
    [err?.message]. *)
Record Failure := {
  response_message : JS.nullable;
  message : JS.nullable
}.

(** How the awaited [login] call ended. *)
Inductive Answer :=
| Accepted (token : JS.nullable) (user : User)
| Refused (err : Failure).

(** [a || b || 'Login failed. Please check your credentials.'] *)
Definition errorMessage (err : Failure) : string :=
  if JS.truthy (response_message err) then default "" (response_message err)
  else if JS.truthy (message err) then default "" (message err)
  else "Login failed. Please check your credentials.".

(** The cells [handleSubmit] writes: the two of the component, the store
    and the router's location. *)
Record State := {
  loading : bool;
  error : string;
  auth : Store.Auth;
  navigated : option string
}.

(** [handleSubmit]; [user_home] is where a user who is not an admin is
    sent. *)
Definition submit (user_home : string) (answer : Answer) (st : State)
  : State :=
  match answer with
  | Accepted token user =>
      {| loading := false;
         error := "";
         auth :=
           Store.setAuth
             {| Store.token := token; Store.role := user_role user;
                Store.userId := user_id user; Store.name := user_name user;
                Store.email := user_email user |} (auth st);
         navigated :=
           Some (if JS.strict_eq (user_role user) "admin"
                 then "/admin/dashboard" else user_home) |}
  | Refused err =>
      {| loading := false;
         error := errorMessage err;
         auth := auth st;
         navigated := navigated st |}
  end.

(** [Login.jsx]: users go to their dashboard. *)
Definition handleSubmit : Answer -> State -> State := submit "/dashboard".

(** [login.jsx]: users go straight to the chat. *)
Definition handleSubmit_chat : Answer -> State -> State := submit "/chat".

End Login.

(** ** [auth/Register.jsx]: the registration form *)

Module Register.

Record Form := {
  name : string;
  email : string;
  password : string;
  confirmPassword : string;
  role : string
}.

(** The code units of [@] and of the dot. *)
Definition at_sign : N := 64.

Definition dot : N := 46.

(** A code unit of the class [[^\s@]]. *)
Definition plain (c : N) : bool :=
  negb (JS.is_space c) && negb (N.eqb c at_sign).

(** [[^\s@]+$] *)
Definition plain_run (l : list N) : bool :=
  negb (Nat.eqb (length l) 0) && forallb plain l.

(** [[^\s@]+\.[^\s@]+$]; [seen] tells whether the first run already has
    a character. *)
Fixpoint domain (seen : bool) (l : list N) : bool :=
  match l with
  | [] => false
  | c :: r =>
      (seen && N.eqb c dot && plain_run r) || (plain c && domain true r)
  end.

(** [[^\s@]+@[^\s@]+\.[^\s@]+$]; [seen] as above. *)
Fixpoint local (seen : bool) (l : list N) : bool :=
  match l with
  | [] => false
  | c :: r =>
      (seen && N.eqb c at_sign && domain false r)
      || (plain c && local true r)
  end.

(** [/^[^\s@]+@[^\s@]+\.[^\s@]+$/.test(s)]; without the [u] flag the
    pattern runs over the code units of [s]. *)
Definition email_re (s : string) : bool := local false (JS.units s).

(** What the pattern says, read as a language: a non-empty local part,
    one [@], and a domain made of two non-empty parts around a dot, no
    part holding white space or [@]. *)
Definition shaped (s : string) : Prop :=
  exists l1 l2 l3 : list N,
    JS.units s = (l1 ++ at_sign :: l2 ++ dot :: l3)%list /\
    plain_run l1 = true /\ plain_run l2 = true /\ plain_run l3 = true.

(** [validateForm]: [None] for [true], otherwise the text given to
    [setError]. *)
Definition validateForm (f : Form) : option string :=
  if JS.blank (name f) then Some "Name is required"
  else if JS.blank (email f) then Some "Email is required"
  else if negb (email_re (email f))
       then Some "Please enter a valid email address"
  else if Nat.ltb (JS.length (password f)) 6
       then Some "Password must be at least 6 characters long"
  else if negb (String.eqb (password f) (confirmPassword f))
       then Some "Passwords do not match"
  else None.

(** The payload of [register]. *)
Record Payload := {
  p_name : string;
  p_email : string;
  p_password : string;
  p_role : string
}.

(** How the awaited [register] call ended; a refusal carries
    [err?.response?.data?.message]. *)
Inductive Answer :=
| Registered
| Refused (response_message : JS.nullable).

Record State := {
  formData : Form;
  loading : bool;
  error : string;
  success : bool;
  requests : list Payload
}.

Definition handleSubmit (answer : Answer) (st : State) : State :=
  match validateForm (formData st) with
  | Some msg =>
      {| formData := formData st; loading := loading st; error := msg;
         success := success st; requests := requests st |}
  | None =>
      let f := formData st in
      let sent :=
        (requests st ++
           [ {| p_name := name f; p_email := email f;
                p_password := password f; p_role := role f |} ])%list in
      match answer with
      | Registered =>
          {| formData := f; loading := false; error := "";
             success := true; requests := sent |}
      | Refused m =>
          {| formData := f; loading := false;
             error := if JS.truthy m then default "" m
                      else "Registration failed. Please try again.";
             success := success st; requests := sent |}
      end
  end.

End Register.

(** ** [admin/Faqs.jsx]: FAQ administration *)

Module Faqs.

(** An FAQ as the server returns it; [faq_id] is its [_id]. *)
Record Faq := { faq_id : string; question : string; answer : string }.

Record State := {
  faqs : list Faq;
  showAddForm : bool;
  new_question : string;
  new_answer : string;
  alerts : list string
}.

(** How the awaited [createFaq] call ended. *)
Inductive Created :=
| Stored (faq : Faq)
| NotStored.

Definition handleAddFaq (result : Created) (st : State) : State :=
  if JS.blank (new_question st) || JS.blank (new_answer st) then
    {| faqs := faqs st; showAddForm := showAddForm st;
       new_question := new_question st; new_answer := new_answer st;
       alerts :=
         (alerts st
          ++ ["Please fill in both question and answer fields."])%list |}
  else
    match result with
    | Stored faq =>
        {| faqs := (faqs st ++ [faq])%list; showAddForm := false;
           new_question := ""; new_answer := ""; alerts := alerts st |}
    | NotStored =>
        {| faqs := faqs st; showAddForm := showAddForm st;
           new_question := new_question st; new_answer := new_answer st;
           alerts :=
             (alerts st ++ ["Failed to create FAQ. Please try again."])%list |}
    end.

(** [handleDeleteFaq(id)]: [confirmed] is the answer to
    [window.confirm], [deleted] whether [deleteFaq] succeeded. *)
Definition handleDeleteFaq (id : string) (confirmed deleted : bool)
    (st : State) : State :=
  if negb confirmed then st
  else if deleted then
    {| faqs := List.filter (fun faq => negb (String.eqb (faq_id faq) id))
                 (faqs st);
       showAddForm := showAddForm st;
       new_question := new_question st; new_answer := new_answer st;
       alerts := alerts st |}
  else
    {| faqs := faqs st; showAddForm := showAddForm st;
       new_question := new_question st; new_answer := new_answer st;
       alerts :=
         (alerts st ++ ["Failed to delete FAQ. Please try again."])%list |}.

End Faqs.

(** ** [ChatWindow.jsx]: quick actions and the retry countdown *)

Module ChatActions.

(** [handleSendMessage] as created by the render that saw the state
    [seen]: the guard, the text sent and the session id are the captured
    ones, while [setMessages(prev => ...)] and the other setters act on
    the state [st] current when the call runs. *)
Definition handleSendMessage_of (seen : Chat.State) (reply : Chat.Reply)
    (st : Chat.State) : Chat.State :=
  if JS.blank (Chat.messageText seen)
     || negb (JS.truthy (Chat.sessionId seen)) then st
  else
    let sent :=
      (Chat.messages st ++ [Chat.UserMsg (Chat.messageText seen)])%list in
    match reply with
    | Chat.Answered bot =>
        {| Chat.sessionId := Chat.sessionId st;
           Chat.messages := (sent ++ [Chat.BotMsg bot])%list;
           Chat.messageText := "";
           Chat.connectionError := Chat.connectionError st;
           Chat.conversationFlow :=
             if Chat.sets_context bot then Some (Chat.flow_of bot)
             else Chat.conversationFlow st;
           Chat.slotFilling :=
             if Chat.needs_slot_filling bot then Some (Chat.slots_of bot)
             else None |}
    | Chat.Failed =>
        {| Chat.sessionId := Chat.sessionId st;
           Chat.messages := sent;
           Chat.messageText := "";
           Chat.connectionError := true;
           Chat.conversationFlow := Chat.conversationFlow st;
           Chat.slotFilling := Chat.slotFilling st |}
    end.

(** The text handed to [sendMessage] by that call, if it makes one. *)
Definition text_sent (seen : Chat.State) : option string :=
  if JS.blank (Chat.messageText seen)
     || negb (JS.truthy (Chat.sessionId seen)) then None
  else Some (Chat.messageText seen).

Definition setMessageText (text : string) (st : Chat.State) : Chat.State :=
  {| Chat.sessionId := Chat.sessionId st;
     Chat.messages := Chat.messages st;
     Chat.messageText := text;
     Chat.connectionError := Chat.connectionError st;
     Chat.conversationFlow := Chat.conversationFlow st;
     Chat.slotFilling := Chat.slotFilling st |}.

(** [sendQuickAction(action)]: [setMessageText(action)], then, 100 ms
    later, the [handleSendMessage] of the render in which the button was
    drawn. *)
Definition sendQuickAction (action : string) (reply : Chat.Reply)
    (st : Chat.State) : Chat.State :=
  handleSendMessage_of st reply (setMessageText action st).

(** The variables of one [handleConnectionError] call: its local
    [count], the two state cells, whether its interval is still set, and
    how often it called [fetchMessages]. *)
Record Retry := {
  count : Z;
  retryCountdown : Z;
  connectionError : bool;
  interval : bool;
  fetches : nat
}.

(** The state right after [handleConnectionError()]. *)
Definition handleConnectionError : Retry :=
  {| count := 5; retryCountdown := 5; connectionError := true;
     interval := true; fetches := 0 |}.

(** One firing of the interval's callback; [sessionId] is the one the
    callback captured. *)
Definition tick (sessionId : JS.nullable) (r : Retry) : Retry :=
  if interval r then
    let c := (count r - 1)%Z in
    if (c =? 0)%Z then
      {| count := c; retryCountdown := c; connectionError := false;
         interval := false;
         fetches := if JS.truthy sessionId then S (fetches r) else fetches r |}
    else
      {| count := c; retryCountdown := c;
         connectionError := connectionError r;
         interval := true; fetches := fetches r |}
  else r.

(** The state after [n] firings of the callback. *)
Definition ticks (sessionId : JS.nullable) (n : nat) : Retry :=
  Nat.iter n (tick sessionId) handleConnectionError.

(** The width of the progress bar, in per cent:
    [((5 - retryCountdown) / 5) * 100]. *)
Definition progress (r : Retry) : Q :=
  ((inject_Z (5 - retryCountdown r) / 5) * 100)%Q.

End ChatActions.

(** ** [IntentEntityRecognizer.jsx]: the probability panel *)

Module Panel.

(** Insertion into a list sorted by falling probability, before the
    first entry that is not strictly more probable. *)
Fixpoint insert (x : string * Q) (l : list (string * Q))
  : list (string * Q) :=
  match l with
  | [] => [x]
  | y :: r =>
      if Qle_bool (snd y) (snd x) then x :: y :: r else y :: insert x r
  end.

(** [.sort(([,a], [,b]) => b - a)]: the stable sort by falling
    probability, here by insertion from the right; every stable sort
    gives this list. *)
Definition sort (l : list (string * Q)) : list (string * Q) :=
  fold_right insert [] l.

(** [more_probable x y]: the comparator allows [x] before [y], that is
    [b - a] is not positive for [a = snd x] and [b = snd y]. *)
Definition more_probable (x y : string * Q) : Prop := (snd y <= snd x)%Q.

(** The entries drawn: [Object.entries(...).sort(...).slice(0, 8)],
    nothing when the mapping is empty. *)
Definition shown (r : Recognizer.Analysis) : list (string * Q) :=
  firstn 8 (sort (Recognizer.all_probabilities r)).

(** The entries cut off by [slice]. *)
Definition hidden (r : Recognizer.Analysis) : list (string * Q) :=
  skipn 8 (sort (Recognizer.all_probabilities r)).

(** The property names every object literal inherits from
    [Object.prototype]; [badges[method]] finds these too. *)
Definition inherited : list string :=
  ["constructor"; "__defineGetter__"; "__defineSetter__"; "hasOwnProperty";
   "__lookupGetter__"; "__lookupSetter__"; "isPrototypeOf";
   "propertyIsEnumerable"; "toString"; "valueOf"; "__proto__";
   "toLocaleString"].

End Panel.

(** ** [admin/AdminDashboard.jsx]: the table of recent queries *)

Module Dashboard.

(** A logged user message and a logged bot message, as far as the table
    reads them. *)
Record UserMessage := { text : JS.nullable; timestamp : string }.

Record BotMessage := { intent : JS.nullable; confidence : Chat.number }.

(** The confidence cell: a percentage, or the text [N/A]. *)
Inductive Cell :=
| Percent (q : Q)
| NotAvailable.

(** A row of the table; [row_date] is the timestamp handed to
    [formatDate], and the percentage is kept exact, before [toFixed]. *)
Record Row := {
  row_query : string;
  row_intent : string;
  row_confidence : Cell;
  row_date : string
}.

(** [x || fallback] on a nullable string. *)
Definition or_else (x : JS.nullable) (fallback : string) : string :=
  if JS.truthy x then default "" x else fallback.

(** A number is truthy when it is there and not zero. *)
Definition cell (c : Chat.number) : Cell :=
  match c with
  | Some q => if Qeq_bool q 0 then NotAvailable else Percent (q * 100)
  | None => NotAvailable
  end.

(** One [<tr>]: the query with index [i] beside [botMessages[i]]. *)
Definition row (botMessages : list BotMessage) (i : nat) (q : UserMessage)
  : Row :=
  {| row_query := or_else (text q) "N/A";
     row_intent :=
       or_else (match botMessages !! i with
                | Some b => intent b
                | None => None
                end) "unknown";
     row_confidence :=
       match botMessages !! i with
       | Some b => cell (confidence b)
       | None => NotAvailable
       end;
     row_date := timestamp q |}.


End Dashboard.

(** * Sample data *)

(** A 401 answer to a chat message, received on a chat page. *)
Definition expired_session : Api.AxiosError :=
  {| Api.url := "/chat/message"; Api.status := Some 401%Z;
     Api.message := "Token has expired" |}.

Definition chat_page : Api.Browser :=
  {| Api.localStorage := {[ "auth-storage" := "{token}"; "theme" := "dark" ]};
     Api.pathname := "/chat/42";
     Api.navigations := [] |}.

(** A reply whose confidence is exactly the threshold, and a chat about
    to send its first message. *)
Definition transfer_at_threshold : Chat.BotMessage :=
  {| Chat.text := "How much would you like to transfer?";
     Chat.intent := Some "transfer";
     Chat.confidence := Some Chat.lit_0_8;
     Chat.method := Some "ml";
     Chat.entities := [];
     Chat.needs_slot_filling := true;
     Chat.pending_slots := {[ "amount" := "How much?" ]};
     Chat.filled_slots := ∅ |}.

Definition fresh_chat : Chat.State :=
  {| Chat.sessionId := Some "42";
     Chat.messages := [];
     Chat.messageText := "Transfer money";
     Chat.connectionError := false;
     Chat.conversationFlow := None;
     Chat.slotFilling := None |}.
(** The sample queries of the analysis view used below, and a
    white-space-only input: a space, a no-break space and a space. *)
Definition transfer_request : string := "Transfer ₹5000 to account 123456789".

Definition blank_request : string := " " ++ Utf8.nbsp ++ " ".



(** The three-turn transfer dialogue of section 8, and the session's
    state after its first and second utterance. *)
Definition wants_transfer : string := "I want to transfer money".

Definition amount_reply : string := "5000".

Definition account_reply : string := "to 123456789".

Definition after_request : Engine.SlotFillingState :=
  Engine.step Engine.demo_config Engine.idle
    (Engine.classify Engine.exp2 Engine.demo_engine wants_transfer)
    (Engine.extract_entities Engine.demo_config wants_transfer) false 10.

Definition after_amount : Engine.SlotFillingState :=
  Engine.step Engine.demo_config after_request
    (Engine.classify Engine.exp2 Engine.demo_engine amount_reply)
    (Engine.extract_entities Engine.demo_config amount_reply) false 11.

(** A chat whose input box holds white space only, and an analysis view
    in the same situation. *)
Definition blank_chat : Chat.State :=
  {| Chat.sessionId := Some "42";
     Chat.messages := [];
     Chat.messageText := blank_request;
     Chat.connectionError := false;
     Chat.conversationFlow := None;
     Chat.slotFilling := None |}.

Definition blank_view : Recognizer.State :=
  {| Recognizer.query := blank_request;
     Recognizer.response := Recognizer.empty_analysis;
     Recognizer.loading := false;
     Recognizer.error := "" |}.

(** A reply that completes a transfer. *)
Definition transfer_done : Chat.BotMessage :=
  {| Chat.text := "Transfer ready";
     Chat.intent := Some "transfer";
     Chat.confidence := Some (9 # 10);
     Chat.method := Some "ml";
     Chat.entities := [];
     Chat.needs_slot_filling := false;
     Chat.pending_slots := ∅;
     Chat.filled_slots := {[ "amount" := "5000" ]} |}.

(** A server error that is not a 401. *)
Definition server_error : Api.AxiosError :=
  {| Api.url := "/chat/message"; Api.status := Some 500%Z;
     Api.message := "Internal Server Error" |}.

(** A machine with every tool and no [nlu_model] directory, on which
    training fails and everything else succeeds. *)
Definition training_fails : Startup.Env :=
  {| Startup.python3 := true; Startup.node := true; Startup.npm := true;
     Startup.venv_dir := true; Startup.nlu_model_dir := false;
     Startup.succeeds := fun c =>
       match c with Startup.TrainModel => false | _ => true end |}.

(** A machine that has the [nlu_model] directory and on which every
    command succeeds; and the exit statuses of one where the NLU service
    fails to come up. *)
Definition all_set : Startup.Env :=
  {| Startup.python3 := true; Startup.node := true; Startup.npm := true;
     Startup.venv_dir := true; Startup.nlu_model_dir := true;
     Startup.succeeds := fun _ => true |}.

Definition nlu_service_dies (c : Startup.Command) : bool :=
  match c with Startup.ServeNLU => false | _ => true end.

(** A user who has just signed in, the state of the login form before,
    and the server's two answers. *)
Definition rajesh : Login.User :=
  {| Login.user_role := Some "user"; Login.user_id := Some "2";
     Login.user_name := Some "Rajesh Kumar";
     Login.user_email := Some "rajesh@securebank.com" |}.

Definition signed_out : Login.State :=
  {| Login.loading := true; Login.error := "";
     Login.auth := Store.initial; Login.navigated := None |}.


(** The store after that sign-in, and a serialisation of it with its
    reader. *)
Definition rajesh_session : Store.Auth :=
  {| Store.token := Some "eyJhbGciOi"; Store.role := Some "user";
     Store.userId := Some "2"; Store.name := Some "Rajesh Kumar";
     Store.email := Some "rajesh@securebank.com" |}.

Definition token_only (s : Store.Auth) : string :=
  default "null" (Store.token s).

Definition whole_entry (raw : string) : option JS.nullable :=
  Some (Some raw).

Definition post_message : Request.Config :=
  {| Request.method := "post"; Request.url := "/chat/message";
     Request.headers := {[ "Content-Type" := "application/json" ]} |}.

(** A registration form that passes validation. *)
Definition priya_form : Register.Form :=
  {| Register.name := "Priya Sharma";
     Register.email := "priya@securebank.com";
     Register.password := "user123";
     Register.confirmPassword := "user123";
     Register.role := "user" |}.

Definition priya_registers : Register.State :=
  {| Register.formData := priya_form; Register.loading := false;
     Register.error := ""; Register.success := false;
     Register.requests := [] |}.

(** An FAQ list, the form filled in, and the FAQ the server creates. *)
Definition card_faq : Faqs.Faq :=
  {| Faqs.faq_id := "f2"; Faqs.question := "How do I block my card?";
     Faqs.answer := "Ask the assistant to block it." |}.

Definition faq_form : Faqs.State :=
  {| Faqs.faqs :=
       [ {| Faqs.faq_id := "f1"; Faqs.question := "Opening hours?";
            Faqs.answer := "9 to 5." |} ];
     Faqs.showAddForm := true;
     Faqs.new_question := "How do I block my card?";
     Faqs.new_answer := "Ask the assistant to block it.";
     Faqs.alerts := [] |}.

(** A chat whose box is empty, ready for a quick action. *)
Definition empty_box : Chat.State :=
  {| Chat.sessionId := Some "42";
     Chat.messages := [];
     Chat.messageText := "";
     Chat.connectionError := false;
     Chat.conversationFlow := None;
     Chat.slotFilling := None |}.

(** * Properties of the front end *)

(** ** JavaScript helpers *)

Lemma truthy_Some s : JS.truthy (Some s) = true <-> s <> "".
Proof.
  unfold JS.truthy. destruct (String.eqb_spec s ""); simpl; split; congruence.
Qed.

Lemma strict_eq_true v lit : JS.strict_eq v lit = true <-> v = Some lit.
Proof.
  destruct v as [s|]; simpl.
  - destruct (String.eqb_spec s lit); split; congruence.
  - split; congruence.
Qed.

Lemma strict_eq_false v lit : JS.strict_eq v lit = false <-> v <> Some lit.
Proof.
  rewrite <- strict_eq_true. destruct (JS.strict_eq v lit); split; congruence.
Qed.

Lemma trim_start_nil l :
  JS.trim_start l = [] <-> forallb JS.is_space l = true.
Proof.
  induction l as [|u l IH]; simpl.
  - split; reflexivity.
  - destruct (JS.is_space u); simpl; [exact IH|].
    split; discriminate.
Qed.

Lemma trim_start_idempotent l :
  JS.trim_start (JS.trim_start l) = JS.trim_start l.
Proof.
  induction l as [|u l IH]; simpl; [reflexivity|].
  destruct (JS.is_space u) eqn:E; [exact IH|]. simpl. rewrite E. reflexivity.
Qed.

Lemma rev_nil {A} (l : list A) : List.rev l = [] <-> l = [].
Proof.
  split; [|intros ->; reflexivity].
  destruct l as [|a l]; [reflexivity|]. simpl. intros H.
  destruct (List.rev l); discriminate.
Qed.

Lemma forallb_rev {A} (f : A -> bool) (l : list A) :
  forallb f (List.rev l) = true <-> forallb f l = true.
Proof.
  rewrite !forallb_forall. split; intros H x Hx; apply H.
  - apply -> List.in_rev. exact Hx.
  - apply <- List.in_rev. exact Hx.
Qed.

(** The guard [!text.trim()] holds exactly when every code unit of the
    text is white space. *)
Lemma blank_all_space s :
  JS.blank s = true <-> forallb JS.is_space (JS.units s) = true.
Proof.
  assert (Hb : JS.blank s = true <-> JS.trim s = []).
  { unfold JS.blank. destruct (JS.trim s); split; congruence. }
  rewrite Hb. unfold JS.trim.
  rewrite rev_nil, trim_start_nil, forallb_rev, <- trim_start_nil,
    trim_start_idempotent.
  apply trim_start_nil.
Qed.

Lemma blank_iff s :
  JS.blank s = true <-> forall u, In u (JS.units s) -> JS.is_space u = true.
Proof. rewrite blank_all_space. apply forallb_forall. Qed.

Lemma forallb_false {A} (f : A -> bool) (l : list A) :
  forallb f l = false <-> exists x, In x l /\ f x = false.
Proof.
  induction l as [|a l IH]; simpl.
  - split; [discriminate|]. intros (x & [] & _).
  - rewrite andb_false_iff, IH. split.
    + intros [H|(x & Hx & Hf)]; [exists a; auto|exists x; auto].
    + intros (x & [<-|Hx] & Hf); [auto|right; exists x; auto].
Qed.

Lemma not_blank_iff s :
  JS.blank s = false <->
  exists u, In u (JS.units s) /\ JS.is_space u = false.
Proof.
  rewrite <- forallb_false.
  destruct (JS.blank s) eqn:Eb.
  - apply blank_all_space in Eb. rewrite Eb. split; discriminate.
  - destruct (forallb JS.is_space (JS.units s)) eqn:Ef;
      [|split; reflexivity].
    apply blank_all_space in Ef. congruence.
Qed.



Lemma gt_true x y :
  Chat.gt x y = true <-> exists c, x = Some c /\ (y < c)%Q.
Proof.
  destruct x as [q|]; simpl.
  - rewrite negb_true_iff. split.
    + intros H. exists q. split; [reflexivity|].
      apply Qnot_le_lt. intros Hle. apply Qle_bool_iff in Hle. congruence.
    + intros (c & Hc & Hlt). injection Hc as <-.
      destruct (Qle_bool q y) eqn:E; [|reflexivity].
      apply Qle_bool_iff in E. exfalso. exact (Qlt_not_le _ _ Hlt E).
  - split; [discriminate|]. intros (c & Hc & _). discriminate.
Qed.

(** ** Routing ([App.jsx]) *)

Section Routing.
Import App.
Variables token role : JS.nullable.

Lemma AdminOnly_renders children :
  JS.truthy token = true -> role = Some "admin" ->
  AdminOnly token role children = children.
Proof.
  intros Ht ->. unfold AdminOnly. rewrite Ht. reflexivity.
Qed.

Lemma AdminOnly_redirects children :
  ~ (JS.truthy token = true /\ role = Some "admin") ->
  AdminOnly token role children = Navigate "/dashboard".
Proof.
  intros Hn. unfold AdminOnly.
  destruct (JS.truthy token) eqn:Ht; simpl; [|reflexivity].
  destruct (JS.strict_eq role "admin") eqn:Hr; [|reflexivity].
  apply strict_eq_true in Hr. exfalso. apply Hn. split; [reflexivity|exact Hr].
Qed.

Lemma admin_page_needs_admin r p :
  element token role r = Render p -> admin_page p = true ->
  JS.truthy token = true /\ role = Some "admin" /\ admin_route r = true.
Proof.
  intros He Hp.
  destruct r; simpl in He;
    unfold Protected, AdminOnly, UserOnly, home in He;
    destruct (JS.truthy token) eqn:Ht; simpl in He;
    destruct (JS.strict_eq role "admin") eqn:Ha; simpl in He;
    try destruct (JS.strict_eq role "user") eqn:Hu; simpl in He;
    try discriminate; injection He as <-; try discriminate;
    apply strict_eq_true in Ha; auto.
Qed.

Lemma no_token_lands_on_login path :
  JS.truthy token = false -> protected (route_of path) = true ->
  settle 3 token role path = Some ("/login", Login).
Proof.
  intros Ht Hp.
  assert (Hlogin : settle 1 token role "/login" = Some ("/login", Login)).
  { simpl. change (route_of "/login") with RLogin. simpl. rewrite Ht.
    reflexivity. }
  assert (Hdash : settle 2 token role "/dashboard" = Some ("/login", Login)).
  { change (settle 2 token role "/dashboard")
      with (match element token role (route_of "/dashboard") with
            | Render p => Some ("/dashboard", p)
            | Navigate to => settle 1 token role to
            end).
    change (route_of "/dashboard") with RDashboard. simpl.
    unfold UserOnly. rewrite Ht. simpl. exact Hlogin. }
  change (settle 3 token role path)
    with (match element token role (route_of path) with
          | Render p => Some (path, p)
          | Navigate to => settle 2 token role to
          end).
  destruct (route_of path); try discriminate; simpl;
    unfold Protected, UserOnly, AdminOnly; rewrite Ht; simpl;
    try exact Hdash.
  all: change (settle 2 token role "/login")
         with (match element token role (route_of "/login") with
               | Render p => Some ("/login", p)
               | Navigate to => settle 1 token role to
               end);
       change (route_of "/login") with RLogin; simpl; rewrite Ht; reflexivity.
Qed.

End Routing.

(** C10, as stated, fails: with no token the guard of the admin routes
    answers with a redirect to [/dashboard], not to [/login]. *)
Lemma admin_route_without_token_is_sent_to_dashboard :
  ~ App.redirects_as_stated None None.
Proof.
  intros (_ & _ & H).
  specialize (H eq_refl App.RAdminDashboard eq_refl).
  discriminate H.
Qed.

(** C10, amended: the two admin pages are rendered only with a token and
    the role [admin], and then their routes do render them; in every
    other case, token or not, the admin routes redirect to [/dashboard];
    with no token the other protected routes redirect to [/login], and
    every protected location, the admin ones through [/dashboard], ends
    on the login page. *)
Theorem routing_guards (token role : JS.nullable) :
  (forall r p, App.element token role r = App.Render p ->
     App.admin_page p = true ->
     JS.truthy token = true /\ role = Some "admin") /\
  (JS.truthy token = true /\ role = Some "admin" ->
     App.element token role App.RAdminDashboard
       = App.Render App.AdminDashboard /\
     App.element token role App.RAdminIntentRecognizer
       = App.Render App.IntentEntityRecognizer) /\
  (~ (JS.truthy token = true /\ role = Some "admin") ->
     forall r, App.admin_route r = true ->
       App.element token role r = App.Navigate "/dashboard") /\
  (JS.truthy token = false ->
     (forall r, App.protected r = true -> App.admin_route r = false ->
        App.element token role r = App.Navigate "/login") /\
     (forall path, App.protected (App.route_of path) = true ->
        App.settle 3 token role path = Some ("/login", App.Login))).
Proof.
  split; [|split; [|split]].
  - intros r p He Hp.
    destruct (admin_page_needs_admin token role r p He Hp) as (? & ? & _).
    split; assumption.
  - intros [Ht Hr]. simpl. split; apply AdminOnly_renders; assumption.
  - intros Hn r Hr. destruct r; try discriminate; simpl;
      apply AdminOnly_redirects; assumption.
  - intros Ht. split.
    + intros r Hp Ha. destruct r; try discriminate; simpl;
        unfold App.Protected, App.UserOnly; rewrite Ht; reflexivity.
    + intros path Hp. apply no_token_lands_on_login; assumption.
Qed.

(** With a token and a role that is neither [admin] nor [user], the
    guards of [/dashboard] and [/login] send the browser to each other:
    no page is ever rendered. *)
Lemma unknown_role_never_settles fuel token role :
  JS.truthy token = true -> role <> Some "admin" -> role <> Some "user" ->
  App.settle fuel token role "/dashboard" = None /\
  App.settle fuel token role "/login" = None.
Proof.
  intros Ht Ha Hu.
  apply strict_eq_false in Ha. apply strict_eq_false in Hu.
  induction fuel as [|n [IHd IHl]]; [split; reflexivity|].
  split.
  - change (App.settle (S n) token role "/dashboard")
      with (match App.element token role (App.route_of "/dashboard") with
            | App.Render p => Some ("/dashboard", p)
            | App.Navigate to => App.settle n token role to
            end).
    change (App.route_of "/dashboard") with App.RDashboard. simpl.
    unfold App.UserOnly. rewrite Ht, Hu. simpl. exact IHl.
  - change (App.settle (S n) token role "/login")
      with (match App.element token role (App.route_of "/login") with
            | App.Render p => Some ("/login", p)
            | App.Navigate to => App.settle n token role to
            end).
    change (App.route_of "/login") with App.RLogin. simpl.
    unfold App.home. rewrite Ht, Ha. simpl. exact IHd.
Qed.

(** ** The response interceptor ([utils/api.js]) *)

Lemma removeItem_keeps_location k b :
  Api.pathname (Api.removeItem k b) = Api.pathname b /\
  Api.navigations (Api.removeItem k b) = Api.navigations b.
Proof. split; reflexivity. Qed.

Lemma is_401_true e : Api.is_401 e = true <-> Api.status e = Some 401%Z.
Proof.
  unfold Api.is_401. destruct (Api.status e) as [n|].
  - rewrite Z.eqb_eq. split; congruence.
  - split; discriminate.
Qed.

(** Any other failure is passed on and the browser is left alone. *)
Lemma other_errors_leave_the_browser e b :
  Api.status e <> Some 401%Z ->
  Api.onRejected e b = (b, Api.Rejected e).
Proof.
  intros Hs. unfold Api.onRejected.
  destruct (Api.is_401 e) eqn:E; [|reflexivity].
  apply is_401_true in E. contradiction.
Qed.

(** C9: on a 401 the interceptor removes [auth-storage] from
    [localStorage], assigns [/login] to [window.location.href] unless the
    current path already starts with [/login] (then nothing is assigned),
    and in both cases hands the error on as a rejected promise. *)
Theorem unauthorized_clears_session_and_redirects
    (e : Api.AxiosError) (b : Api.Browser) :
  Api.status e = Some 401%Z ->
  Api.localStorage (fst (Api.onRejected e b))
    = delete "auth-storage" (Api.localStorage b) /\
  Api.localStorage (fst (Api.onRejected e b)) !! "auth-storage" = None /\
  (JS.startsWith (Api.pathname b) "/login" = false ->
     Api.navigations (fst (Api.onRejected e b))
       = (Api.navigations b ++ ["/login"])%list /\
     Api.pathname (fst (Api.onRejected e b)) = "/login") /\
  (JS.startsWith (Api.pathname b) "/login" = true ->
     Api.navigations (fst (Api.onRejected e b)) = Api.navigations b /\
     Api.pathname (fst (Api.onRejected e b)) = Api.pathname b) /\
  snd (Api.onRejected e b) = Api.Rejected e.
Proof.
  intros Hs. apply is_401_true in Hs.
  unfold Api.onRejected. rewrite Hs.
  change (Api.pathname (Api.removeItem "auth-storage" b))
    with (Api.pathname b).
  destruct (JS.startsWith (Api.pathname b) "/login") eqn:Hp; simpl.
  - repeat split; try discriminate; try reflexivity.
    apply lookup_delete_eq.
  - repeat split; try discriminate; try reflexivity.
    apply lookup_delete_eq.
Qed.

Lemma unauthorized_on_chat_page :
  Api.localStorage (fst (Api.onRejected expired_session chat_page))
    = delete "auth-storage" (Api.localStorage chat_page) /\
  Api.localStorage (fst (Api.onRejected expired_session chat_page))
    !! "auth-storage" = None /\
  (JS.startsWith (Api.pathname chat_page) "/login" = false ->
     Api.navigations (fst (Api.onRejected expired_session chat_page))
       = (Api.navigations chat_page ++ ["/login"])%list /\
     Api.pathname (fst (Api.onRejected expired_session chat_page))
       = "/login") /\
  (JS.startsWith (Api.pathname chat_page) "/login" = true ->
     Api.navigations (fst (Api.onRejected expired_session chat_page))
       = Api.navigations chat_page /\
     Api.pathname (fst (Api.onRejected expired_session chat_page))
       = Api.pathname chat_page) /\
  snd (Api.onRejected expired_session chat_page)
    = Api.Rejected expired_session.
Proof.
  apply (unauthorized_clears_session_and_redirects expired_session chat_page).
  reflexivity.
Defined.

(** ** The chat component ([ChatWindow.jsx]) *)

Lemma sends_true st :
  Chat.sends st = true <->
  JS.blank (Chat.messageText st) = false /\
  JS.truthy (Chat.sessionId st) = true.
Proof.
  unfold Chat.sends.
  destruct (JS.blank (Chat.messageText st)), (JS.truthy (Chat.sessionId st));
    simpl; split; intros; try discriminate; auto; destruct H; discriminate.
Qed.

(** A message made of white space only, that is of the code units that
    [trim] removes (the no-break space and the other Unicode spaces
    included), or a missing session id, makes [handleSendMessage] return
    at once: nothing is sent and no state cell changes. *)
Lemma blank_message_is_not_sent reply st :
  (forall u, In u (JS.units (Chat.messageText st)) -> JS.is_space u = true)
  \/ JS.truthy (Chat.sessionId st) = false ->
  Chat.sends st = false /\ Chat.handleSendMessage reply st = st.
Proof.
  intros H.
  assert (Hg : JS.blank (Chat.messageText st)
               || negb (JS.truthy (Chat.sessionId st)) = true).
  { destruct H as [H| ->].
    - apply blank_iff in H. rewrite H. reflexivity.
    - apply orb_true_r. }
  unfold Chat.sends, Chat.handleSendMessage. rewrite Hg. split; reflexivity.
Qed.

Lemma sets_context_true bot :
  Chat.sets_context bot = true <->
  JS.truthy (Chat.intent bot) = true /\
  exists c, Chat.confidence bot = Some c /\ (Chat.lit_0_8 < c)%Q.
Proof.
  unfold Chat.sets_context. rewrite andb_true_iff, gt_true. reflexivity.
Qed.

Lemma context_after_answer bot st :
  Chat.sends st = true ->
  Chat.conversationFlow (Chat.handleSendMessage (Chat.Answered bot) st)
    = if Chat.sets_context bot then Some (Chat.flow_of bot)
      else Chat.conversationFlow st.
Proof.
  unfold Chat.sends, Chat.handleSendMessage. intros H.
  apply negb_true_iff in H. rewrite H. reflexivity.
Qed.

Lemma slots_after_answer bot st :
  Chat.sends st = true ->
  Chat.slotFilling (Chat.handleSendMessage (Chat.Answered bot) st)
    = if Chat.needs_slot_filling bot then Some (Chat.slots_of bot) else None.
Proof.
  unfold Chat.sends, Chat.handleSendMessage. intros H.
  apply negb_true_iff in H. rewrite H. reflexivity.
Qed.

(** A failed call changes neither the context nor the slot-filling
    mirror. *)
Lemma failed_call_keeps_context st :
  Chat.conversationFlow (Chat.handleSendMessage Chat.Failed st)
    = Chat.conversationFlow st /\
  Chat.slotFilling (Chat.handleSendMessage Chat.Failed st)
    = Chat.slotFilling st.
Proof.
  unfold Chat.handleSendMessage.
  destruct (JS.blank (Chat.messageText st)
            || negb (JS.truthy (Chat.sessionId st))); split; reflexivity.
Qed.

(** C6, as stated, fails: a reply whose confidence is exactly 0.8 has an
    intent and a confidence at the threshold, yet the context is not
    replaced, because the component tests [confidence > 0.8]. *)
Lemma context_kept_at_exactly_0_8 :
  ~ Chat.context_as_stated transfer_at_threshold fresh_chat.
Proof.
  unfold Chat.context_as_stated. intros H.
  specialize (H eq_refl). cbv zeta in H. destruct H as [H _].
  assert (Hflow : Chat.conversationFlow
            (Chat.handleSendMessage (Chat.Answered transfer_at_threshold)
               fresh_chat) = None) by (vm_compute; reflexivity).
  rewrite Hflow in H.
  assert (Hpre : JS.truthy (Chat.intent transfer_at_threshold) = true /\
            exists c, Chat.confidence transfer_at_threshold = Some c /\
                      (Chat.lit_0_8 <= c)%Q).
  { split; [reflexivity|]. exists Chat.lit_0_8. split; [reflexivity|].
    apply Qle_refl. }
  specialize (H Hpre). discriminate H.
Qed.

(** C6, amended: after an answered turn the context is replaced exactly
    when the reply has an intent and a confidence strictly above 0.8; in
    every other case, a confidence of exactly 0.8 included, it is left as
    it was.  The slot-filling mirror is set from [needs_slot_filling]
    alone, so neither update depends on the other. *)
Theorem context_replaced_strictly_above_0_8
    (bot : Chat.BotMessage) (st : Chat.State) :
  Chat.sends st = true ->
  (JS.truthy (Chat.intent bot) = true /\
   (exists c, Chat.confidence bot = Some c /\ (Chat.lit_0_8 < c)%Q) ->
     Chat.conversationFlow (Chat.handleSendMessage (Chat.Answered bot) st)
       = Some (Chat.flow_of bot)) /\
  (~ (JS.truthy (Chat.intent bot) = true /\
      exists c, Chat.confidence bot = Some c /\ (Chat.lit_0_8 < c)%Q) ->
     Chat.conversationFlow (Chat.handleSendMessage (Chat.Answered bot) st)
       = Chat.conversationFlow st) /\
  Chat.slotFilling (Chat.handleSendMessage (Chat.Answered bot) st)
    = (if Chat.needs_slot_filling bot then Some (Chat.slots_of bot)
       else None).
Proof.
  intros Hs. rewrite context_after_answer, slots_after_answer by exact Hs.
  pose proof (sets_context_true bot) as Hc.
  destruct (Chat.sets_context bot); repeat split.
  - intros Hn. exfalso. apply Hn. apply Hc. reflexivity.
  - intros Hp. apply Hc in Hp. discriminate Hp.
Qed.

Lemma context_at_exactly_0_8 :
  (JS.truthy (Chat.intent transfer_at_threshold) = true /\
   (exists c, Chat.confidence transfer_at_threshold = Some c /\
              (Chat.lit_0_8 < c)%Q) ->
     Chat.conversationFlow
       (Chat.handleSendMessage (Chat.Answered transfer_at_threshold)
          fresh_chat)
       = Some (Chat.flow_of transfer_at_threshold)) /\
  (~ (JS.truthy (Chat.intent transfer_at_threshold) = true /\
      exists c, Chat.confidence transfer_at_threshold = Some c /\
                (Chat.lit_0_8 < c)%Q) ->
     Chat.conversationFlow
       (Chat.handleSendMessage (Chat.Answered transfer_at_threshold)
          fresh_chat)
       = Chat.conversationFlow fresh_chat) /\
  Chat.slotFilling
    (Chat.handleSendMessage (Chat.Answered transfer_at_threshold) fresh_chat)
    = (if Chat.needs_slot_filling transfer_at_threshold
       then Some (Chat.slots_of transfer_at_threshold) else None).
Proof.
  apply (context_replaced_strictly_above_0_8 transfer_at_threshold fresh_chat).
  reflexivity.
Defined.

(** * Properties of the engine *)

(** ** Sums of rationals *)

Lemma total_nonneg qs :
  Forall (fun q => (0 <= q)%Q) qs -> (0 <= Engine.total qs)%Q.
Proof.
  induction 1 as [|q qs Hq _ IH]; simpl.
  - apply Qle_refl.
  - change 0%Q with (0 + 0)%Q. apply Qplus_le_compat; assumption.
Qed.

Lemma member_le_total q qs :
  Forall (fun q => (0 <= q)%Q) qs -> In q qs -> (q <= Engine.total qs)%Q.
Proof.
  induction 1 as [|x xs Hx Hxs IH]; simpl; [contradiction|].
  intros [->|Hin].
  - rewrite <- (Qplus_0_r q) at 1. apply Qplus_le_compat.
    + apply Qle_refl.
    + apply total_nonneg. exact Hxs.
  - rewrite <- (Qplus_0_l q). apply Qplus_le_compat; [exact Hx|auto].
Qed.

Lemma total_scaled t es :
  (Engine.total (List.map (fun e => e / t) es) == Engine.total es / t)%Q.
Proof.
  induction es as [|e es IH]; simpl.
  - unfold Qdiv. ring.
  - rewrite IH. unfold Qdiv. ring.
Qed.

Lemma total_repeat (q : Q) (n : nat) :
  (Engine.total (repeat q n) == inject_Z (Z.of_nat n) * q)%Q.
Proof.
  induction n as [|n IH].
  - simpl. ring.
  - rewrite Nat2Z.inj_succ. unfold Z.succ. rewrite inject_Z_plus.
    simpl repeat. simpl Engine.total. rewrite IH. ring.
Qed.

Lemma positive_total es :
  es <> [] -> Forall (fun q => (0 < q)%Q) es -> (0 < Engine.total es)%Q.
Proof.
  intros Hne H. destruct H as [|e es He Hes]; [congruence|]. simpl.
  apply Qlt_le_trans with (y := (e + 0)%Q).
  - rewrite Qplus_0_r. exact He.
  - apply Qplus_le_compat; [apply Qle_refl|].
    apply total_nonneg. eapply Forall_impl; [exact Hes|].
    intros q Hq. apply Qlt_le_weak. exact Hq.
Qed.

(** ** The classifier produces a distribution *)

Section Distribution.
Import Engine.
Variable exp : Q -> Q.
Hypothesis exp_positive : forall x, (0 < exp x)%Q.

Lemma softmax_length zs : length (softmax exp zs) = length zs.
Proof. unfold softmax. rewrite !length_map. reflexivity. Qed.

Lemma exp_all_positive zs : Forall (fun q => (0 < q)%Q) (List.map exp zs).
Proof.
  induction zs; simpl; constructor; auto.
Qed.

Lemma softmax_total zs : zs <> [] -> (total (softmax exp zs) == 1)%Q.
Proof.
  intros Hne. unfold softmax. rewrite total_scaled.
  assert (Hpos : (0 < total (List.map exp zs))%Q).
  { apply positive_total; [|apply exp_all_positive].
    destruct zs; [congruence|discriminate]. }
  unfold Qdiv. apply Qmult_inv_r.
  intros Heq. rewrite Heq in Hpos. exact (Qlt_irrefl _ Hpos).
Qed.

Lemma softmax_bounds zs :
  Forall (fun p => (0 <= p)%Q /\ (p <= 1)%Q) (softmax exp zs).
Proof.
  unfold softmax.
  destruct zs as [|z zs]; [constructor|].
  set (es := List.map exp (z :: zs)).
  assert (Hall : Forall (fun q => (0 < q)%Q) es) by apply exp_all_positive.
  assert (Hpos : (0 < total es)%Q).
  { apply positive_total; [discriminate|exact Hall]. }
  apply Forall_forall. intros p Hp. apply list_elem_of_In in Hp.
  apply in_map_iff in Hp. destruct Hp as (e & <- & He).
  assert (He0 : (0 < e)%Q).
  { rewrite Forall_forall in Hall. apply Hall. apply list_elem_of_In.
    exact He. }
  split.
  - apply Qle_shift_div_l; [exact Hpos|]. rewrite Qmult_0_l.
    apply Qlt_le_weak. exact He0.
  - apply Qle_shift_div_r; [exact Hpos|]. rewrite Qmult_1_l.
    apply member_le_total; [|exact He].
    eapply Forall_impl; [exact Hall|]. intros q Hq.
    apply Qlt_le_weak. exact Hq.
Qed.

End Distribution.

Lemma map_fst_combine {A B} (l : list A) (k : list B) :
  length l = length k -> List.map fst (combine l k) = l.
Proof.
  revert k. induction l as [|a l IH]; intros [|b k] Hlen; simpl in *;
    try congruence. f_equal. apply IH. lia.
Qed.

Lemma map_snd_combine {A B} (l : list A) (k : list B) :
  length l = length k -> List.map snd (combine l k) = k.
Proof.
  revert k. induction l as [|a l IH]; intros [|b k] Hlen; simpl in *;
    try congruence. f_equal. apply IH. lia.
Qed.

Lemma Forall_snd {A} (P : Q -> Prop) (ps : list (A * Q)) :
  Forall P (List.map snd ps) -> Forall (fun p => P (snd p)) ps.
Proof.
  induction ps as [|p ps IH]; simpl; intros H; [constructor|].
  inversion H; subst. constructor; auto.
Qed.

Lemma top_in ps p : Engine.top ps = Some p -> In p ps.
Proof.
  revert p. induction ps as [|x ps IH]; simpl; [discriminate|].
  intros p. destruct (Engine.top ps) as [q|].
  - destruct (Qle_bool (snd q) (snd x)); intros [= <-]; auto.
  - intros [= <-]. auto.
Qed.

Lemma top_nonempty ps : ps <> [] -> exists p, Engine.top ps = Some p.
Proof.
  destruct ps as [|x ps]; [congruence|]. intros _. simpl.
  destruct (Engine.top ps) as [q|]; [|eauto].
  destruct (Qle_bool (snd q) (snd x)); eauto.
Qed.

(** The chosen entry is a largest one. *)
Lemma top_is_largest ps p :
  Engine.top ps = Some p -> forall q, In q ps -> (snd q <= snd p)%Q.
Proof.
  revert p. induction ps as [|x ps IH]; simpl; [discriminate|].
  intros p Htop q Hq. destruct (Engine.top ps) as [t|] eqn:Et.
  - destruct (Qle_bool (snd t) (snd x)) eqn:Ele; injection Htop as <-.
    + apply Qle_bool_iff in Ele. destruct Hq as [<-|Hq]; [apply Qle_refl|].
      eapply Qle_trans; [apply (IH t eq_refl q Hq)|exact Ele].
    + destruct Hq as [<-|Hq]; [|apply (IH t eq_refl q Hq)].
      apply Qlt_le_weak. apply Qnot_le_lt. intros Hle.
      apply Qle_bool_iff in Hle. congruence.
  - injection Htop as <-. destruct Hq as [<-|Hq]; [apply Qle_refl|].
    destruct ps; [contradiction|]. simpl in Et.
    destruct (Engine.top ps); [destruct (Qle_bool _ _)|]; discriminate.
Qed.

Lemma uniform_is_distribution names :
  names <> [] -> Engine.distribution names (Engine.uniform names).
Proof.
  intros Hne. unfold Engine.distribution, Engine.uniform.
  set (n := inject_Z (Z.of_nat (length names))).
  assert (Hn : (0 < n)%Q).
  { unfold n. change 0%Q with (inject_Z 0). rewrite <- Zlt_Qlt.
    destruct names; [congruence|]. simpl length. lia. }
  assert (H1 : (1 <= n)%Q).
  { unfold n. change 1%Q with (inject_Z 1). rewrite <- Zle_Qle.
    destruct names; [congruence|]. simpl length. lia. }
  split; [|split].
  - rewrite List.map_map. simpl. apply List.map_id.
  - apply Forall_forall. intros p Hp. apply list_elem_of_In in Hp.
    apply in_map_iff in Hp. destruct Hp as (i & <- & _). simpl. split.
    + apply Qle_shift_div_l; [exact Hn|]. rewrite Qmult_0_l. discriminate.
    + apply Qle_shift_div_r; [exact Hn|]. rewrite Qmult_1_l. exact H1.
  - rewrite List.map_map. simpl.
    assert (Hrep : forall (q : Q) (l : list string),
              List.map (fun _ : string => q) l = repeat q (length l)).
    { intros q l. induction l as [|x l IHl]; simpl; [reflexivity|].
      rewrite IHl. reflexivity. }
    rewrite Hrep, total_repeat. fold n. apply Qmult_div_r.
    intros Heq. rewrite Heq in Hn. exact (Qlt_irrefl _ Hn).
Qed.

Lemma initialize_inl cfg a e :
  Engine.initialize cfg a = inl e ->
  Engine.config e = cfg /\ Engine.load a = Some (Engine.model e) /\
  Engine.valid_model (Engine.model e) = true /\
  Engine.valid_config cfg = true.
Proof.
  unfold Engine.initialize.
  destruct (Engine.load a) as [m|] eqn:El; [|discriminate].
  destruct (Engine.valid_config cfg) eqn:Ec; [|discriminate].
  intros [= <-]. simpl. repeat split; try reflexivity.
  unfold Engine.load in El. destruct a as [| |m']; try discriminate.
  destruct (Engine.valid_model m') eqn:Ev; [|discriminate].
  injection El as <-. exact Ev.
Qed.

Lemma valid_model_has_intents m :
  Engine.valid_model m = true -> Engine.intents m <> [].
Proof.
  unfold Engine.valid_model, Engine.intents. intros H.
  apply andb_prop in H. destruct H as [H _].
  destruct (Engine.classes m); [discriminate H|discriminate].
Qed.

Section Results.
Import Engine.
Variable exp : Q -> Q.
Hypothesis exp_positive : forall x, (0 < exp x)%Q.

Lemma predict_proba_is_distribution m toks :
  valid_model m = true -> distribution (intents m) (predict_proba exp m toks).
Proof.
  intros Hv. pose proof (valid_model_has_intents m Hv) as Hne.
  unfold distribution, predict_proba.
  set (zs := List.map (fun c => score (snd c) (features m toks)) (classes m)).
  assert (Hlen : length (intents m) = length (softmax exp zs)).
  { rewrite softmax_length. unfold zs, intents. rewrite !length_map.
    reflexivity. }
  split; [|split].
  - apply map_fst_combine. exact Hlen.
  - apply Forall_snd with (P := fun q => (0 <= q)%Q /\ (q <= 1)%Q).
    rewrite map_snd_combine by exact Hlen.
    apply softmax_bounds. exact exp_positive.
  - rewrite map_snd_combine by exact Hlen.
    apply softmax_total; [exact exp_positive|].
    unfold zs. unfold intents in Hne.
    destruct (classes m); [exfalso; apply Hne; reflexivity|discriminate].
Qed.

Lemma ml_classify_is_distribution e toks :
  valid_model (model e) = true ->
  distribution (intents (model e)) (all_probabilities (ml_classify exp e toks))
  /\ (0 <= confidence (ml_classify exp e toks))%Q
  /\ (confidence (ml_classify exp e toks) <= 1)%Q.
Proof.
  intros Hv.
  pose proof (predict_proba_is_distribution (model e) toks Hv) as Hd.
  unfold ml_classify.
  destruct (top (predict_proba exp (model e) toks)) as [[i c]|] eqn:Et; simpl.
  - split; [exact Hd|].
    destruct Hd as (_ & Hb & _). rewrite Forall_forall in Hb.
    apply top_in in Et. apply list_elem_of_In in Et.
    apply (Hb _ Et).
  - split; [exact Hd|]. split; [apply Qle_refl|discriminate].
Qed.

Lemma classify_bounded
    (cfg : Config) (a : Artifact) (e : Engine) (utterance : string) :
  initialize cfg a = inl e ->
  (0 <= confidence (classify exp e utterance))%Q /\
  (confidence (classify exp e utterance) <= 1)%Q /\
  distribution (intents (model e))
               (all_probabilities (classify exp e utterance)).
Proof.
  intros Hi. apply initialize_inl in Hi.
  destruct Hi as (Hcfg & _ & Hv & Hc).
  unfold valid_config in Hc. rewrite <- Hcfg in Hc.
  apply andb_prop in Hc. destruct Hc as [Hc _].
  apply andb_prop in Hc. destruct Hc as [Hc Hr1].
  apply andb_prop in Hc. destruct Hc as [_ Hr0].
  apply Qle_bool_iff in Hr0. apply Qle_bool_iff in Hr1.
  unfold classify, stages.
  destruct (whitespace_only utterance).
  - simpl. split; [apply Qle_refl|]. split; [discriminate|].
    apply uniform_is_distribution. apply valid_model_has_intents. exact Hv.
  - destruct (ml_classify_is_distribution e (normalize utterance) Hv)
      as (Hd & H0 & H1).
    unfold arbitrate.
    destruct (Qle_bool (threshold (config e))
                (confidence (ml_classify exp e (normalize utterance)))).
    + simpl. auto.
    + destruct (rule_match (rules (config e)) (normalize utterance)); simpl.
      * split; [exact Hr0|]. split; [exact Hr1|exact Hd].
      * split; [apply Qle_refl|]. split; [discriminate|exact Hd].
Qed.

(** C2: for an initialised engine and every utterance, the confidence of
    [classify] lies in [0,1] and [all_probabilities] gives every intent of
    the fixed set a probability in [0,1], the probabilities adding up to
    exactly 1. *)
Theorem classify_confidence_and_probabilities
    (cfg : Config) (a : Artifact) (e : Engine) (utterance : string) :
  initialize cfg a = inl e ->
  (0 <= confidence (classify exp e utterance))%Q /\
  (confidence (classify exp e utterance) <= 1)%Q /\
  List.map fst (all_probabilities (classify exp e utterance))
    = intents (model e) /\
  Forall (fun p => (0 <= snd p)%Q /\ (snd p <= 1)%Q)
         (all_probabilities (classify exp e utterance)) /\
  (total (List.map snd (all_probabilities (classify exp e utterance)))
     == 1)%Q.
Proof.
  intros Hi.
  destruct (classify_bounded cfg a e utterance Hi) as (H0 & H1 & Hd).
  split; [exact H0|]. split; [exact H1|]. exact Hd.
Qed.




End Results.

Lemma exp2_positive x : (0 < Engine.exp2 x)%Q.
Proof. unfold Engine.exp2. apply Qpower_0_lt. reflexivity. Qed.

Lemma demo_engine_starts :
  Engine.initialize Engine.demo_config (Engine.Stored Engine.demo_model)
    = inl Engine.demo_engine.
Proof. reflexivity. Qed.

Lemma classify_transfer_request_in_range :
  (0 <= Engine.confidence
          (Engine.classify Engine.exp2 Engine.demo_engine transfer_request))%Q
  /\
  (Engine.confidence
     (Engine.classify Engine.exp2 Engine.demo_engine transfer_request)
   <= 1)%Q /\
  List.map fst
    (Engine.all_probabilities
       (Engine.classify Engine.exp2 Engine.demo_engine transfer_request))
    = Engine.intents (Engine.model Engine.demo_engine) /\
  Forall (fun p => (0 <= snd p)%Q /\ (snd p <= 1)%Q)
    (Engine.all_probabilities
       (Engine.classify Engine.exp2 Engine.demo_engine transfer_request)) /\
  (Engine.total
     (List.map snd
        (Engine.all_probabilities
           (Engine.classify Engine.exp2 Engine.demo_engine
              transfer_request)))
   == 1)%Q.
Proof.
  apply (classify_confidence_and_probabilities Engine.exp2 exp2_positive
           Engine.demo_config (Engine.Stored Engine.demo_model)
           Engine.demo_engine transfer_request).
  reflexivity.
Defined.


(** ** The decision cascade *)

Section Classification.
Import Engine.
Variable exp : Q -> Q.

Lemma stages_Some e utterance from_ml hit :
  stages exp e utterance = Some (from_ml, hit) ->
  whitespace_only utterance = false /\
  from_ml = ml_classify exp e (normalize utterance) /\
  hit = rule_match (rules (config e)) (normalize utterance).
Proof.
  unfold stages. destruct (whitespace_only utterance); [discriminate|].
  intros [= <- <-]. auto.
Qed.

(** The confidence reported by the ML path is the largest probability of
    its distribution. *)
Lemma ml_confidence_is_top e toks p :
  In p (all_probabilities (ml_classify exp e toks)) ->
  (snd p <= confidence (ml_classify exp e toks))%Q.
Proof.
  unfold ml_classify.
  destruct (top (predict_proba exp (model e) toks)) as [[i c]|] eqn:Et;
    simpl; intros Hin.
  - apply (top_is_largest _ _ Et p Hin).
  - destruct (predict_proba exp (model e) toks) as [|x xs];
      [contradiction|].
    destruct (top_nonempty (x :: xs)) as [q Hq]; [discriminate|].
    congruence.
Qed.



End Classification.



(** ** The slot-filling dialogue manager *)

#[local] Set Warnings "-clear-no-such-hyp".

Section Dialogue.
Import Engine.
Variable cfg : Config.

Lemma slot_for_Some i pending t n :
  slot_for cfg i pending t = Some n ->
  is_Some (pending !! n) /\ n ∈ required_slots cfg i.
Proof.
  unfold slot_for. intros H. apply fmap_Some in H.
  destruct H as (s & Hfind & ->). apply List.find_some in Hfind.
  destruct Hfind as [Hin Hp]. apply andb_prop in Hp. destruct Hp as [_ Hp].
  apply bool_decide_eq_true in Hp. split; [exact Hp|].
  unfold required_slots. apply elem_of_list_to_set.
  apply list_elem_of_fmap_2. apply list_elem_of_In. exact Hin.
Qed.

Lemma all_pending_dom i : dom (all_pending cfg i) = required_slots cfg i.
Proof.
  unfold all_pending, required_slots. rewrite dom_list_to_map_L.
  f_equal. rewrite <- list_fmap_compose. reflexivity.
Qed.

Lemma fill_one_partitioned i fp en :
  partitioned cfg i (fst fp) (snd fp) ->
  partitioned cfg i (fst (fill_one cfg i fp en)) (snd (fill_one cfg i fp en)).
Proof.
  intros [Hdis Hun]. unfold fill_one.
  destruct (slot_for cfg i (snd fp) (label en)) as [n|] eqn:Es;
    [|split; assumption].
  apply slot_for_Some in Es. destruct Es as [Hp _].
  apply elem_of_dom in Hp. simpl. split.
  - rewrite dom_insert_L, dom_delete_L. set_solver.
  - rewrite dom_insert_L, dom_delete_L. rewrite <- Hun.
    apply set_eq. intros x. rewrite !elem_of_union, elem_of_difference,
      elem_of_singleton. destruct (decide (x = n)) as [->|Hne]; tauto.
Qed.

(** A filled slot is never written again: entities go to pending slots
    only. *)
Lemma fill_one_grows i fp en :
  partitioned cfg i (fst fp) (snd fp) ->
  fst fp ⊆ fst (fill_one cfg i fp en).
Proof.
  intros [Hdis _]. unfold fill_one.
  destruct (slot_for cfg i (snd fp) (label en)) as [n|] eqn:Es;
    [|reflexivity].
  apply slot_for_Some in Es. destruct Es as [Hp _].
  apply elem_of_dom in Hp. simpl. apply insert_subseteq.
  apply not_elem_of_dom. set_solver.
Qed.

Lemma merge_partitioned i ents fp :
  partitioned cfg i (fst fp) (snd fp) ->
  partitioned cfg i (fst (merge cfg i ents fp)) (snd (merge cfg i ents fp)).
Proof.
  unfold merge. revert fp. induction ents as [|en ents IH]; intros fp H.
  - exact H.
  - simpl. apply IH. apply fill_one_partitioned. exact H.
Qed.

Lemma merge_grows i ents fp :
  partitioned cfg i (fst fp) (snd fp) ->
  fst fp ⊆ fst (merge cfg i ents fp).
Proof.
  unfold merge. revert fp. induction ents as [|en ents IH]; intros fp H.
  - reflexivity.
  - simpl. transitivity (fst (fill_one cfg i fp en)).
    + apply fill_one_grows. exact H.
    + apply IH. apply fill_one_partitioned. exact H.
Qed.

Lemma after_merge_well_formed i turns now fp :
  partitioned cfg i (fst fp) (snd fp) ->
  well_formed cfg (after_merge i turns now fp).
Proof.
  intros H. unfold well_formed, after_merge. simpl.
  split; [exact H|].
  destruct (decide (snd fp = ∅)) as [He|Hne]; split; split;
    intros; try reflexivity; try assumption; try discriminate;
    try contradiction.
Qed.

Lemma idle_well_formed : well_formed cfg idle.
Proof. unfold well_formed. simpl. auto. Qed.

Lemma start_well_formed cls ents now :
  well_formed cfg (start cfg cls ents now).
Proof.
  unfold start. apply after_merge_well_formed. apply merge_partitioned.
  simpl. split.
  - rewrite dom_empty_L. set_solver.
  - rewrite dom_empty_L, all_pending_dom. set_solver.
Qed.

Lemma step_well_formed st cls ents cancel now :
  well_formed cfg st -> well_formed cfg (step cfg st cls ents cancel now).
Proof.
  intros Hwf. unfold step.
  assert (Hfresh : well_formed cfg
            (if high_confidence cfg cls then start cfg cls ents now
             else idle)).
  { destruct (high_confidence cfg cls);
      [apply start_well_formed|apply idle_well_formed]. }
  destruct (status st); try exact Hfresh.
  destruct (active_intent st) as [i|] eqn:Ei; [|exact Hfresh].
  destruct cancel.
  - unfold well_formed. simpl. auto.
  - destruct (overrides cfg i cls); [apply start_well_formed|].
    apply after_merge_well_formed. apply merge_partitioned. simpl.
    unfold well_formed in Hwf. rewrite Ei in Hwf. apply Hwf.
Qed.

Lemma consume_well_formed st :
  well_formed cfg st -> well_formed cfg (snd (consume st)).
Proof.
  intros Hwf. unfold consume.
  destruct (status st); try exact Hwf.
  destruct (active_intent st); [apply idle_well_formed|exact Hwf].
Qed.

Lemma expire_well_formed st now :
  well_formed cfg st -> well_formed cfg (expire cfg st now).
Proof.
  intros Hwf. unfold expire.
  destruct (Nat.ltb (last_updated st + ttl cfg) now);
    [apply idle_well_formed|exact Hwf].
Qed.

Lemma reachable_well_formed st : reachable cfg st -> well_formed cfg st.
Proof.
  induction 1.
  - apply idle_well_formed.
  - apply step_well_formed. assumption.
  - apply consume_well_formed. assumption.
  - apply expire_well_formed. assumption.
Qed.

(** C3: in every reachable state with an active intent no slot is both
    filled and pending, the filled and the pending slots together are
    exactly the intent's required-slot set, the state is COMPLETE as soon
    as nothing is pending, and consuming a COMPLETE state hands over the
    intent with its filled slots and leaves the empty, inactive state. *)
Theorem filled_and_pending_partition_required
    (st : SlotFillingState) (i : string) :
  reachable cfg st -> active_intent st = Some i ->
  dom (filled_slots st) ## dom (pending_slots st) /\
  dom (filled_slots st) ∪ dom (pending_slots st) = required_slots cfg i /\
  (pending_slots st = ∅ -> status st = COMPLETE) /\
  (status st = COMPLETE ->
     pending_slots st = ∅ /\
     dom (filled_slots st) = required_slots cfg i /\
     consume st = (Some (i, filled_slots st), idle)).
Proof.
  intros Hr Hi. apply reachable_well_formed in Hr.
  unfold well_formed in Hr. rewrite Hi in Hr.
  destruct Hr as ([Hdis Hun] & Hc & _).
  split; [exact Hdis|]. split; [exact Hun|]. split; [apply Hc|].
  intros Hs. assert (Hp : pending_slots st = ∅) by (apply Hc; exact Hs).
  split; [exact Hp|]. split.
  - rewrite <- Hun, Hp, dom_empty_L. set_solver.
  - unfold consume. rewrite Hs, Hi. reflexivity.
Qed.

(** One utterance during a fill, without cancellation or override: the
    active intent stays and every filled slot keeps its value. *)
Lemma step_keeps_filled st i cls ents now :
  well_formed cfg st ->
  status st = AWAITING_SLOTS -> active_intent st = Some i ->
  overrides cfg i cls = false ->
  step cfg st cls ents false now
    = after_merge i (S (turn_count st)) now
        (merge cfg i ents (filled_slots st, pending_slots st)) /\
  filled_slots st ⊆ filled_slots (step cfg st cls ents false now).
Proof.
  intros Hwf Hs Hi Ho.
  assert (Hstep : step cfg st cls ents false now
            = after_merge i (S (turn_count st)) now
                (merge cfg i ents (filled_slots st, pending_slots st))).
  { unfold step. rewrite Hs, Hi, Ho. reflexivity. }
  split; [exact Hstep|]. rewrite Hstep. simpl.
  apply (merge_grows i ents (filled_slots st, pending_slots st)).
  unfold well_formed in Hwf. rewrite Hi in Hwf. apply Hwf.
Qed.

End Dialogue.

Lemma after_amount_reachable :
  Engine.reachable Engine.demo_config after_amount.
Proof.
  unfold after_amount, after_request.
  apply Engine.reach_step. apply Engine.reach_step. apply Engine.reach_idle.
Qed.

Lemma transfer_amount_filled_account_pending :
  dom (Engine.filled_slots after_amount)
    ## dom (Engine.pending_slots after_amount) /\
  dom (Engine.filled_slots after_amount)
    ∪ dom (Engine.pending_slots after_amount)
    = Engine.required_slots Engine.demo_config "transfer" /\
  (Engine.pending_slots after_amount = ∅ ->
     Engine.status after_amount = Engine.COMPLETE) /\
  (Engine.status after_amount = Engine.COMPLETE ->
     Engine.pending_slots after_amount = ∅ /\
     dom (Engine.filled_slots after_amount)
       = Engine.required_slots Engine.demo_config "transfer" /\
     Engine.consume after_amount
       = (Some ("transfer", Engine.filled_slots after_amount), Engine.idle)).
Proof.
  apply (filled_and_pending_partition_required Engine.demo_config
           after_amount "transfer").
  - exact after_amount_reachable.
  - vm_compute. reflexivity.
Defined.

Section Sessions.
Import Engine.
Variable exp : Q -> Q.

Lemma get_stored store sid st : store !! sid = Some st -> get store sid = st.
Proof. unfold get. intros ->. reflexivity. Qed.

Lemma get_put sid st store : get (put sid st store) sid = st.
Proof. unfold get, put. rewrite lookup_insert_eq. reflexivity. Qed.

Lemma not_expired cfg st now :
  now <= last_updated st + ttl cfg -> expire cfg st now = st.
Proof.
  intros H. unfold expire.
  destruct (Nat.ltb_spec (last_updated st + ttl cfg) now); [lia|reflexivity].
Qed.

(** Every state [processTurn] writes is a reachable one. *)
Lemma processTurn_keeps_sessions_reachable e store sid utterance now :
  (forall s st, store !! s = Some st -> reachable (config e) st) ->
  forall s st,
    fst (processTurn exp e store sid utterance now) !! s = Some st ->
    reachable (config e) st.
Proof.
  intros Hall s st. unfold processTurn.
  destruct (whitespace_only utterance); [apply Hall|]. cbv zeta.
  assert (Hget : reachable (config e) (get store sid)).
  { unfold get. destruct (store !! sid) as [st0|] eqn:E; simpl.
    - apply (Hall sid). exact E.
    - apply reach_idle. }
  set (st1 := step (config e) (expire (config e) (get store sid) now)
                (classify exp e utterance)
                (extract_entities (config e) utterance)
                (mentions (cancel_phrases (config e)) (normalize utterance))
                now).
  assert (Hst1 : reachable (config e) st1).
  { apply reach_step. apply reach_expire. exact Hget. }
  destruct (status st1); simpl; unfold put;
    (destruct (decide (sid = s)) as [->|Hne];
     [rewrite lookup_insert_eq; intros [= <-]
     |rewrite lookup_insert_ne by exact Hne; apply Hall]);
    try exact Hst1; try apply reach_idle.
  apply reach_consume. exact Hst1.
Qed.

(** A request handed off for fulfilment leaves its session idle. *)
Lemma handed_off_session_is_reset e store sid utterance now :
  (forall s st, store !! s = Some st -> reachable (config e) st) ->
  reply_directive (snd (processTurn exp e store sid utterance now)) = HandOff ->
  get (fst (processTurn exp e store sid utterance now)) sid = idle.
Proof.
  intros Hall. unfold processTurn.
  destruct (whitespace_only utterance); [discriminate|]. cbv zeta.
  set (st1 := step (config e) (expire (config e) (get store sid) now)
                (classify exp e utterance)
                (extract_entities (config e) utterance)
                (mentions (cancel_phrases (config e)) (normalize utterance))
                now).
  assert (Hwf : well_formed (config e) st1).
  { apply reachable_well_formed. apply reach_step. apply reach_expire.
    unfold get. destruct (store !! sid) as [st0|] eqn:E; simpl.
    - apply (Hall sid). exact E.
    - apply reach_idle. }
  destruct (status st1) eqn:Es; simpl; try discriminate.
  - destruct (next_prompt (config e) st1) as [[n q]|]; discriminate.
  - intros _. rewrite get_put. unfold consume. rewrite Es.
    destruct (active_intent st1) eqn:Ei; [reflexivity|].
    unfold well_formed in Hwf. rewrite Ei in Hwf.
    destruct Hwf as (_ & _ & [Hs|Hs]); congruence.
Qed.

(** C7: while a session is filling slots, an utterance that neither
    cancels, nor overrides the intent, nor arrives after the session
    expired, leaves every filled slot with its value, whatever entities
    it mentions: either the turn completes the fill and the slot is
    handed over with the request, or the stored state still has the same
    active intent, the slot, and all slots that were filled before. *)
Theorem filled_slot_stays_filled
    (e : Engine) (store : gmap string SlotFillingState)
    (sid utterance : string) (now : nat)
    (st : SlotFillingState) (i n v : string) :
  store !! sid = Some st ->
  reachable (config e) st ->
  status st = AWAITING_SLOTS ->
  active_intent st = Some i ->
  filled_slots st !! n = Some v ->
  now <= last_updated st + ttl (config e) ->
  mentions (cancel_phrases (config e)) (normalize utterance) = false ->
  overrides (config e) i (classify exp e utterance) = false ->
  (reply_directive (snd (processTurn exp e store sid utterance now))
     = HandOff /\
   completed_intent (snd (processTurn exp e store sid utterance now))
     = Some i /\
   handed_slots (snd (processTurn exp e store sid utterance now)) !! n
     = Some v) \/
  (exists st',
     fst (processTurn exp e store sid utterance now) !! sid = Some st' /\
     status st' = AWAITING_SLOTS /\
     active_intent st' = Some i /\
     filled_slots st' !! n = Some v /\
     filled_slots st ⊆ filled_slots st').
Proof.
  intros Hsid Hr Hs Hi Hn Hnow Hcancel Hover.
  unfold processTurn.
  destruct (whitespace_only utterance).
  { right. exists st. simpl. auto. }
  cbv zeta.
  rewrite (get_stored _ _ _ Hsid), (not_expired _ _ _ Hnow), Hcancel.
  destruct (step_keeps_filled (config e) st i (classify exp e utterance)
              (extract_entities (config e) utterance) now
              (reachable_well_formed _ _ Hr) Hs Hi Hover) as [Hstep Hsub].
  set (st1 := step (config e) st (classify exp e utterance)
                (extract_entities (config e) utterance) false now) in *.
  assert (Hi1 : active_intent st1 = Some i) by (rewrite Hstep; reflexivity).
  assert (Hn1 : filled_slots st1 !! n = Some v).
  { eapply lookup_weaken; [exact Hn|exact Hsub]. }
  assert (Hst : status st1 = COMPLETE \/ status st1 = AWAITING_SLOTS).
  { rewrite Hstep. unfold after_merge. simpl.
    destruct (decide (_ = ∅)); auto. }
  destruct Hst as [Ec|Ea]; rewrite ?Ec, ?Ea.
  - left. simpl. split; [reflexivity|]. split; [|exact Hn1].
    unfold consume. rewrite Ec, Hi1. reflexivity.
  - right. exists st1. simpl. unfold put. rewrite lookup_insert_eq. auto.
Qed.

End Sessions.

Lemma amount_survives_the_account_reply :
  (Engine.reply_directive
     (snd (Engine.processTurn Engine.exp2 Engine.demo_engine
             {[ "42" := after_amount ]} "42" account_reply 12))
     = Engine.HandOff /\
   Engine.completed_intent
     (snd (Engine.processTurn Engine.exp2 Engine.demo_engine
             {[ "42" := after_amount ]} "42" account_reply 12))
     = Some "transfer" /\
   Engine.handed_slots
     (snd (Engine.processTurn Engine.exp2 Engine.demo_engine
             {[ "42" := after_amount ]} "42" account_reply 12)) !! "amount"
     = Some "5000") \/
  (exists st',
     fst (Engine.processTurn Engine.exp2 Engine.demo_engine
            {[ "42" := after_amount ]} "42" account_reply 12) !! "42"
       = Some st' /\
     Engine.status st' = Engine.AWAITING_SLOTS /\
     Engine.active_intent st' = Some "transfer" /\
     Engine.filled_slots st' !! "amount" = Some "5000" /\
     Engine.filled_slots after_amount ⊆ Engine.filled_slots st').
Proof.
  apply (filled_slot_stays_filled Engine.exp2 Engine.demo_engine
           {[ "42" := after_amount ]} "42" account_reply 12
           after_amount "transfer" "amount" "5000").
  - apply lookup_singleton_eq.
  - exact after_amount_reachable.
  - vm_compute. reflexivity.
  - vm_compute. reflexivity.
  - vm_compute. reflexivity.
  - vm_compute. lia.
  - vm_compute. reflexivity.
  - vm_compute. reflexivity.
Defined.

(** * What the callers of the engine do *)

(** ** Blank input never leaves the browser *)

(** A query made of white space only, that is of the code units that
    [trim] removes (the no-break space and the other Unicode spaces
    included), is not analysed: [handleAnalyze] shows its own error text
    and keeps the previous analysis. *)
Lemma blank_query_shows_an_error reply st :
  (forall u, In u (JS.units (Recognizer.query st)) -> JS.is_space u = true) ->
  Recognizer.analyses st = false /\
  Recognizer.response (Recognizer.handleAnalyze reply st)
    = Recognizer.response st /\
  Recognizer.error (Recognizer.handleAnalyze reply st)
    = "Please enter a query to analyze".
Proof.
  intros H. apply blank_iff in H.
  unfold Recognizer.analyses, Recognizer.handleAnalyze. rewrite H.
  repeat split.
Qed.

(** A non-blank query shows exactly what [analyzeQuery] returned. *)
Lemma analysis_is_shown_unchanged result st :
  Recognizer.analyses st = true ->
  Recognizer.response
    (Recognizer.handleAnalyze (Recognizer.Analysed result) st) = result.
Proof.
  unfold Recognizer.analyses, Recognizer.handleAnalyze. intros H.
  apply negb_true_iff in H. rewrite H. reflexivity.
Qed.

(** ** The method badge *)

Lemma method_badges :
  Recognizer.badge_text <$> Recognizer.getMethodBadge "ml"
    = Some "Machine Learning" /\
  Recognizer.badge_text <$> Recognizer.getMethodBadge "rule"
    = Some "Rule-based" /\
  Recognizer.badge_text <$> Recognizer.getMethodBadge "fallback"
    = Some "Fallback".
Proof. repeat split. Qed.

Lemma unknown_method_gets_fallback_badge method :
  method <> "ml" -> method <> "rule" -> method <> "fallback" ->
  Recognizer.getMethodBadge method = Recognizer.getMethodBadge "fallback".
Proof.
  intros H1 H2 H3. unfold Recognizer.getMethodBadge at 1.
  assert (Hnone : Recognizer.badges !! method = None).
  { unfold Recognizer.badges.
    rewrite !lookup_insert_ne by congruence.
    apply lookup_singleton_ne. congruence. }
  rewrite Hnone. reflexivity.
Qed.

(** ** The slot-filling mirror of the chat component *)

(** A reply that needs no more slots clears the mirror, so no prompt is
    rendered. *)
Lemma finished_fill_clears_the_mirror bot st :
  Chat.sends st = true -> Chat.needs_slot_filling bot = false ->
  Chat.slotFilling (Chat.handleSendMessage (Chat.Answered bot) st) = None /\
  Chat.renderSlotFillingPrompt
    (Chat.handleSendMessage (Chat.Answered bot) st) = None.
Proof.
  intros Hs Hn.
  assert (H : Chat.slotFilling
                (Chat.handleSendMessage (Chat.Answered bot) st) = None).
  { rewrite slots_after_answer by exact Hs. rewrite Hn. reflexivity. }
  split; [exact H|]. unfold Chat.renderSlotFillingPrompt. rewrite H.
  reflexivity.
Qed.

(** ** The start-up script *)

Lemma foreground_all_succeed env cmds log log' :
  Startup.foreground env cmds log = (log', true) ->
  forall c, In c cmds -> Startup.succeeds env c = true.
Proof.
  revert log. induction cmds as [|d cmds IH]; simpl; intros log H c Hc.
  - contradiction.
  - destruct (Startup.succeeds env d) eqn:Ed; [|discriminate].
    destruct Hc as [<-|Hc]; [exact Ed|]. eapply IH; eauto.
Qed.

Lemma foreground_log env cmds log log' ok c :
  Startup.foreground env cmds log = (log', ok) ->
  In c log' -> In c log \/ In c cmds.
Proof.
  revert log. induction cmds as [|d cmds IH]; simpl; intros log H Hc.
  - injection H as <- _. auto.
  - destruct (Startup.succeeds env d).
    + apply IH in H; [|exact Hc]. destruct H as [H|H]; [|auto].
      apply in_app_or in H. destruct H as [H|[<-|[]]]; auto.
    + injection H as <- _. apply in_app_or in Hc.
      destruct Hc as [Hc|[<-|[]]]; auto.
Qed.

(** With no [nlu_model] directory the script trains the model, and under
    [set -e] a failed training run ends the script before any service is
    started. *)
Lemma failed_training_stops_the_script env :
  Startup.nlu_model_dir env = false ->
  Startup.succeeds env Startup.TrainModel = false ->
  exists log, Startup.run env = Startup.Aborted log /\
    forall c, In c Startup.background -> ~ In c log.
Proof.
  intros Hd Ht. unfold Startup.run.
  destruct (Startup.python3 env); simpl;
    [|exists []; split; [reflexivity|intros c _ []]].
  destruct (Startup.node env); simpl;
    [|exists []; split; [reflexivity|intros c _ []]].
  destruct (Startup.npm env); simpl;
    [|exists []; split; [reflexivity|intros c _ []]].
  destruct (Startup.foreground env (Startup.setup env) []) as [log ok] eqn:Ef.
  destruct ok.
  - pose proof (foreground_all_succeed env _ _ _ Ef Startup.TrainModel) as H.
    assert (Hin : In Startup.TrainModel (Startup.setup env)).
    { unfold Startup.setup. rewrite Hd.
      destruct (Startup.venv_dir env); simpl; auto 10. }
    specialize (H Hin). congruence.
  - exists log. split; [reflexivity|]. intros c Hc Hlog.
    destruct (foreground_log env _ _ _ _ c Ef Hlog) as [[]|H].
    unfold Startup.setup in H.
    destruct (Startup.venv_dir env), (Startup.nlu_model_dir env);
      simpl in H, Hc; intuition (subst; discriminate).
Qed.

Lemma foreground_ignores_background env f cmds log :
  (forall c, ~ In c Startup.background -> f c = Startup.succeeds env c) ->
  (forall c, In c cmds -> ~ In c Startup.background) ->
  Startup.foreground (Startup.with_status env f) cmds log
    = Startup.foreground env cmds log.
Proof.
  intros Hf. revert log. induction cmds as [|d cmds IH]; intros log Hc.
  - reflexivity.
  - simpl. rewrite Hf by (apply Hc; left; reflexivity).
    destruct (Startup.succeeds env d); [|reflexivity].
    apply IH. intros c Hin. apply Hc. right. exact Hin.
Qed.

(** The three services are started with [&]: whether the NLU service
    comes up, for instance whether it could load its model, changes
    nothing in what the script does next. *)
Lemma services_start_whatever_becomes_of_them env f :
  (forall c, ~ In c Startup.background -> f c = Startup.succeeds env c) ->
  Startup.run (Startup.with_status env f) = Startup.run env.
Proof.
  intros Hf. unfold Startup.run. simpl.
  change (Startup.setup (Startup.with_status env f)) with (Startup.setup env).
  rewrite foreground_ignores_background; [reflexivity|exact Hf|].
  intros c Hc Hb. unfold Startup.setup in Hc.
  destruct (Startup.venv_dir env), (Startup.nlu_model_dir env);
    simpl in Hc, Hb; intuition (subst; discriminate).
Qed.

(** * The properties above on the sample data *)

Lemma blank_chat_sends_nothing :
  Chat.sends blank_chat = false /\
  Chat.handleSendMessage (Chat.Answered transfer_done) blank_chat
    = blank_chat.
Proof.
  apply (blank_message_is_not_sent (Chat.Answered transfer_done) blank_chat).
  left. intros u Hu. vm_compute in Hu.
  destruct Hu as [<-|[<-|[<-|[]]]]; reflexivity.
Defined.

Lemma blank_view_shows_an_error :
  Recognizer.analyses blank_view = false /\
  Recognizer.response (Recognizer.handleAnalyze Recognizer.Failed blank_view)
    = Recognizer.response blank_view /\
  Recognizer.error (Recognizer.handleAnalyze Recognizer.Failed blank_view)
    = "Please enter a query to analyze".
Proof.
  apply (blank_query_shows_an_error Recognizer.Failed blank_view).
  intros u Hu. vm_compute in Hu.
  destruct Hu as [<-|[<-|[<-|[]]]]; reflexivity.
Defined.

Lemma manager_role_never_settles :
  App.settle 100 (Some "token") (Some "manager") "/dashboard" = None /\
  App.settle 100 (Some "token") (Some "manager") "/login" = None.
Proof.
  apply (unknown_role_never_settles 100 (Some "token") (Some "manager"));
    [reflexivity|discriminate|discriminate].
Defined.

Lemma server_error_is_passed_on :
  Api.onRejected server_error chat_page
    = (chat_page, Api.Rejected server_error).
Proof.
  apply (other_errors_leave_the_browser server_error chat_page).
  discriminate.
Defined.

Lemma transfer_done_clears_the_mirror :
  Chat.slotFilling
    (Chat.handleSendMessage (Chat.Answered transfer_done) fresh_chat) = None
  /\
  Chat.renderSlotFillingPrompt
    (Chat.handleSendMessage (Chat.Answered transfer_done) fresh_chat) = None.
Proof.
  apply (finished_fill_clears_the_mirror transfer_done fresh_chat);
    reflexivity.
Defined.

Lemma training_fails_stops_the_script :
  exists log, Startup.run training_fails = Startup.Aborted log /\
    forall c, In c Startup.background -> ~ In c log.
Proof.
  apply (failed_training_stops_the_script training_fails); reflexivity.
Defined.

Lemma script_runs_on_when_the_nlu_service_dies :
  Startup.run (Startup.with_status all_set nlu_service_dies)
    = Startup.run all_set.
Proof.
  apply (services_start_whatever_becomes_of_them all_set nlu_service_dies).
  intros c Hc. destruct c; try reflexivity.
  exfalso. apply Hc. simpl. auto.
Defined.

(** * Further properties of the front end *)

(** ** Where the router ends up *)

Lemma settle_unfold n token role path :
  App.settle (S n) token role path
    = match App.element token role (App.route_of path) with
      | App.Render p => Some (path, p)
      | App.Navigate to => App.settle n token role to
      end.
Proof. reflexivity. Qed.

Lemma route_of_literals :
  App.route_of "/login" = App.RLogin /\
  App.route_of "/dashboard" = App.RDashboard /\
  App.route_of "/admin/dashboard" = App.RAdminDashboard.
Proof. repeat split. Qed.

Ltac open_guards :=
  cbn [App.element];
  unfold App.Protected, App.AdminOnly, App.UserOnly, App.home.


Lemma settles_without_token token role path :
  JS.truthy token = false ->
  exists q p, App.settle 3 token role path = Some (q, p) /\
              (p = App.Login \/ p = App.Register).
Proof.
  intros Ht.
  assert (Hlogin : forall n,
            App.settle (S n) token role "/login" = Some ("/login", App.Login)).
  { intros n. rewrite settle_unfold, (proj1 route_of_literals).
    open_guards. rewrite Ht. reflexivity. }
  assert (Hdash : forall n,
            App.settle (S (S n)) token role "/dashboard"
              = Some ("/login", App.Login)).
  { intros n. rewrite settle_unfold, (proj1 (proj2 route_of_literals)).
    open_guards. rewrite Ht. cbn [andb]. apply Hlogin. }
  rewrite settle_unfold.
  destruct (App.route_of path); open_guards; rewrite Ht; cbn [andb negb];
    rewrite ?Hlogin, ?Hdash; eauto.
Qed.

Lemma settles_for_admin token path :
  JS.truthy token = true ->
  exists q p, App.settle 3 token (Some "admin") path = Some (q, p) /\
              (p = App.ChatWindow \/ p = App.AdminDashboard \/
               p = App.IntentEntityRecognizer).
Proof.
  intros Ht.
  assert (Hadmin : forall n,
            App.settle (S n) token (Some "admin") "/admin/dashboard"
              = Some ("/admin/dashboard", App.AdminDashboard)).
  { intros n. rewrite settle_unfold, (proj2 (proj2 route_of_literals)).
    open_guards. rewrite Ht. reflexivity. }
  assert (Hlogin : forall n,
            App.settle (S (S n)) token (Some "admin") "/login"
              = Some ("/admin/dashboard", App.AdminDashboard)).
  { intros n. rewrite settle_unfold, (proj1 route_of_literals).
    open_guards. rewrite Ht. cbn [negb JS.strict_eq String.eqb].
    apply Hadmin. }
  rewrite settle_unfold.
  destruct (App.route_of path); open_guards; rewrite Ht;
    cbn [andb negb JS.strict_eq String.eqb Ascii.eqb Bool.eqb];
    rewrite ?Hadmin, ?Hlogin; eauto 6.
Qed.

Lemma settles_for_user token path :
  JS.truthy token = true ->
  exists q p, App.settle 3 token (Some "user") path = Some (q, p) /\
              (p = App.UserDashboard \/ p = App.ChatWindow).
Proof.
  intros Ht.
  assert (Hdash : forall n,
            App.settle (S n) token (Some "user") "/dashboard"
              = Some ("/dashboard", App.UserDashboard)).
  { intros n. rewrite settle_unfold, (proj1 (proj2 route_of_literals)).
    open_guards. rewrite Ht. reflexivity. }
  rewrite settle_unfold.
  destruct (App.route_of path); open_guards; rewrite Ht;
    cbn [andb negb JS.strict_eq String.eqb Ascii.eqb Bool.eqb];
    rewrite ?Hdash; eauto 6.
Qed.

(** From every location the redirects of the route table end within
    three steps: without a token on the login or the register page, for
    an admin on the chat or one of the two admin pages, for a user on the
    user dashboard or the chat. *)
Theorem every_location_settles (token : JS.nullable) (path : string) :
  (forall role, JS.truthy token = false ->
     exists q p, App.settle 3 token role path = Some (q, p) /\
                 (p = App.Login \/ p = App.Register)) /\
  (JS.truthy token = true ->
     exists q p, App.settle 3 token (Some "admin") path = Some (q, p) /\
                 (p = App.ChatWindow \/ p = App.AdminDashboard \/
                  p = App.IntentEntityRecognizer)) /\
  (JS.truthy token = true ->
     exists q p, App.settle 3 token (Some "user") path = Some (q, p) /\
                 (p = App.UserDashboard \/ p = App.ChatWindow)).
Proof.
  split; [|split].
  - intros role. apply settles_without_token.
  - apply settles_for_admin.
  - apply settles_for_user.
Qed.

(** ** Signing in ([Login.jsx], [login.jsx]) *)

Lemma submit_accepted home token user st :
  Store.token (Login.auth (Login.submit home (Login.Accepted token user) st))
    = token /\
  Store.role (Login.auth (Login.submit home (Login.Accepted token user) st))
    = Login.user_role user /\
  Login.navigated (Login.submit home (Login.Accepted token user) st)
    = Some (if JS.strict_eq (Login.user_role user) "admin"
            then "/admin/dashboard" else home).
Proof. repeat split. Qed.


(** With [login.jsx] everybody but an admin is sent to [/chat], which
    renders the chat for every role. *)
Theorem sign_in_lands_on_the_chat
    (token : JS.nullable) (user : Login.User) (st : Login.State) :
  JS.truthy token = true ->
  Login.user_role user <> Some "admin" ->
  Login.navigated (Login.handleSubmit_chat (Login.Accepted token user) st)
    = Some "/chat" /\
  App.settle 1
    (Store.token
       (Login.auth (Login.handleSubmit_chat (Login.Accepted token user) st)))
    (Store.role
       (Login.auth (Login.handleSubmit_chat (Login.Accepted token user) st)))
    "/chat"
  = Some ("/chat", App.ChatWindow).
Proof.
  intros Ht Ha. unfold Login.handleSubmit_chat.
  destruct (submit_accepted "/chat" token user st) as (-> & -> & ->).
  apply strict_eq_false in Ha. rewrite Ha. split; [reflexivity|].
  rewrite settle_unfold. change (App.route_of "/chat") with App.RChat.
  open_guards. rewrite Ht. reflexivity.
Qed.



(** ** The request interceptor and the store *)

Section Requests.
Variable read_token : string -> option JS.nullable.

Lemma onRequest_without_entry b config :
  Api.localStorage b !! "auth-storage" = None ->
  Request.onRequest read_token b config = config.
Proof. unfold Request.onRequest. intros ->. reflexivity. Qed.

(** Once the response interceptor has handled a 401, the request
    interceptor finds no stored session and passes every request on
    unchanged: no [Authorization] header is added. *)
Theorem no_token_is_attached_after_a_401
    (e : Api.AxiosError) (b : Api.Browser) (config : Request.Config) :
  Api.status e = Some 401%Z ->
  Request.onRequest read_token (fst (Api.onRejected e b)) config = config.
Proof.
  intros Hs. apply onRequest_without_entry.
  unfold Api.onRejected.
  destruct (Api.is_401 e) eqn:E.
  - destruct (negb (JS.startsWith
                      (Api.pathname (Api.removeItem "auth-storage" b))
                      "/login")); simpl; apply lookup_delete_eq.
  - apply is_401_true in Hs. congruence.
Qed.

Variable stringify : Store.Auth -> string.

(** When the store has persisted a state, and parsing the stored text
    gives back its token, the next request carries [Bearer] and that
    token if the token is truthy, and is passed on unchanged if it is
    not (after [clearAuth], for instance); the other headers, the method
    and the URL stay as they are. *)
Theorem persisted_token_is_attached
    (s : Store.Auth) (b : Api.Browser) (config : Request.Config) :
  stringify (Store.partialize s) <> "" ->
  read_token (stringify (Store.partialize s)) = Some (Store.token s) ->
  (JS.truthy (Store.token s) = true ->
     Request.headers
       (Request.onRequest read_token (Store.persist stringify s b) config)
       !! "Authorization"
       = Some ("Bearer " ++ default "" (Store.token s)) /\
     (forall k, k <> "Authorization" ->
        Request.headers
          (Request.onRequest read_token (Store.persist stringify s b) config)
          !! k
        = Request.headers config !! k) /\
     Request.method
       (Request.onRequest read_token (Store.persist stringify s b) config)
       = Request.method config /\
     Request.url
       (Request.onRequest read_token (Store.persist stringify s b) config)
       = Request.url config) /\
  (JS.truthy (Store.token s) = false ->
     Request.onRequest read_token (Store.persist stringify s b) config
       = config).
Proof.
  intros Hne Hread.
  assert (Hon : Request.onRequest read_token (Store.persist stringify s b)
                  config
                = if JS.truthy (Store.token s) then
                    {| Request.method := Request.method config;
                       Request.url := Request.url config;
                       Request.headers :=
                         <["Authorization" :=
                             "Bearer " ++ default "" (Store.token s)]>
                           (Request.headers config) |}
                  else config).
  { unfold Request.onRequest, Store.persist, Store.setItem. simpl.
    rewrite lookup_insert_eq.
    destruct (String.eqb_spec (stringify (Store.partialize s)) "");
      [contradiction|].
    rewrite Hread. reflexivity. }
  rewrite Hon. split; intros Ht; rewrite Ht; [|reflexivity]. simpl.
  split; [apply lookup_insert_eq|]. split; [|split; reflexivity].
  intros k Hk. apply lookup_insert_ne. congruence.
Qed.

End Requests.

(** Signing out: [clearAuth] leaves a state whose token is [null], so
    once it is persisted no request carries a token. *)
Lemma cleared_store_has_no_token s :
  JS.truthy (Store.token (Store.clearAuth s)) = false /\
  Store.clearAuth (Store.setAuth s Store.initial) = Store.initial.
Proof. split; reflexivity. Qed.

(** ** Registration ([Register.jsx]) *)

Lemma plain_run_true l :
  Register.plain_run l = true <-> l <> [] /\ forallb Register.plain l = true.
Proof.
  unfold Register.plain_run. rewrite andb_true_iff, negb_true_iff.
  destruct l; simpl; split; intros [H1 H2]; split; try congruence; auto.
Qed.

Lemma domain_true seen l :
  Register.domain seen l = true <->
  exists l2 l3,
    l = (l2 ++ Register.dot :: l3)%list /\ forallb Register.plain l2 = true /\
    (seen = true \/ l2 <> []) /\ Register.plain_run l3 = true.
Proof.
  revert seen. induction l as [|c r IH]; intros seen; simpl.
  - split; [discriminate|]. intros (l2 & l3 & H & _). destruct l2; discriminate.
  - rewrite orb_true_iff, !andb_true_iff, IH. split.
    + intros [[[Hs Hc] Hr]|[Hc (l2 & l3 & -> & Hp & _ & Hr)]].
      * apply N.eqb_eq in Hc. subst c. exists [], r. simpl. auto.
      * exists (c :: l2), l3. simpl. rewrite Hc, Hp.
        repeat split; auto; right; discriminate.
    + intros (l2 & l3 & Heq & Hp & Hs & Hr). destruct l2 as [|d l2].
      * simpl in Heq. injection Heq as -> ->. left.
        destruct Hs as [->|Hs]; [|congruence]. auto.
      * simpl in Heq. injection Heq as -> ->. simpl in Hp.
        apply andb_true_iff in Hp. destruct Hp as [Hd Hp]. right.
        split; [exact Hd|]. exists l2, l3. auto.
Qed.

Lemma local_true seen l :
  Register.local seen l = true <->
  exists l1 r,
    l = (l1 ++ Register.at_sign :: r)%list /\ forallb Register.plain l1 = true /\
    (seen = true \/ l1 <> []) /\ Register.domain false r = true.
Proof.
  revert seen. induction l as [|c r IH]; intros seen; simpl.
  - split; [discriminate|]. intros (l1 & k & H & _). destruct l1; discriminate.
  - rewrite orb_true_iff, !andb_true_iff, IH. split.
    + intros [[[Hs Hc] Hr]|[Hc (l1 & k & -> & Hp & _ & Hr)]].
      * apply N.eqb_eq in Hc. subst c. exists [], r. simpl. auto.
      * exists (c :: l1), k. simpl. rewrite Hc, Hp.
        repeat split; auto; right; discriminate.
    + intros (l1 & k & Heq & Hp & Hs & Hr). destruct l1 as [|d l1].
      * simpl in Heq. injection Heq as -> ->. left.
        destruct Hs as [->|Hs]; [|congruence]. auto.
      * simpl in Heq. injection Heq as -> ->. simpl in Hp.
        apply andb_true_iff in Hp. destruct Hp as [Hd Hp]. right.
        split; [exact Hd|]. exists l1, k. auto.
Qed.

Lemma plain_has_no_at l :
  forallb Register.plain l = true ->
  count_occ N.eq_dec l Register.at_sign = 0 /\
  forall c, In c l -> JS.is_space c = false.
Proof.
  intros H. rewrite forallb_forall in H. split.
  - apply count_occ_not_In. intros Hin. apply H in Hin.
    unfold Register.plain in Hin. rewrite N.eqb_refl in Hin.
    rewrite andb_false_r in Hin. discriminate.
  - intros c Hc. apply H in Hc. unfold Register.plain in Hc.
    apply andb_true_iff in Hc. destruct Hc as [Hc _].
    apply negb_true_iff in Hc. exact Hc.
Qed.

Lemma email_re_shaped s : Register.email_re s = true <-> Register.shaped s.
Proof.
  unfold Register.email_re, Register.shaped. rewrite local_true. split.
  - intros (l1 & r & Heq & Hp1 & [Hs|Hn] & Hd); [discriminate|].
    apply domain_true in Hd.
    destruct Hd as (l2 & l3 & -> & Hp2 & [Hs|Hn2] & Hr); [discriminate|].
    apply plain_run_true in Hr.
    exists l1, l2, l3. rewrite !plain_run_true. auto.
  - intros (l1 & l2 & l3 & Heq & H1 & H2 & H3).
    apply plain_run_true in H1. apply plain_run_true in H2.
    destruct H1 as [Hn1 Hp1]. destruct H2 as [Hn2 Hp2].
    exists l1, (l2 ++ Register.dot :: l3)%list. repeat split; auto.
    apply domain_true. exists l2, l3. auto.
Qed.

(** The pattern of [validateForm] accepts exactly the strings of the
    form local [@] name [.] rest with three non-empty parts free of white
    space and of [@]; an accepted address therefore holds exactly one [@]
    and no white space. *)
Theorem email_pattern_accepts_one_at_and_a_dot (s : string) :
  (Register.email_re s = true <-> Register.shaped s) /\
  (Register.email_re s = true ->
     count_occ N.eq_dec (JS.units s) Register.at_sign = 1 /\
     forall c, In c (JS.units s) -> JS.is_space c = false).
Proof.
  pose proof (email_re_shaped s) as Hiff.
  split; [exact Hiff|]. intros H. apply Hiff in H.
  destruct H as (l1 & l2 & l3 & -> & H1 & H2 & H3).
  apply plain_run_true in H1. apply plain_run_true in H2.
  apply plain_run_true in H3.
  destruct (plain_has_no_at l1 (proj2 H1)) as [C1 S1].
  destruct (plain_has_no_at l2 (proj2 H2)) as [C2 S2].
  destruct (plain_has_no_at l3 (proj2 H3)) as [C3 S3].
  split.
  - rewrite count_occ_app. simpl. rewrite count_occ_app. simpl.
    destruct (N.eq_dec Register.at_sign Register.at_sign); [|congruence].
    destruct (N.eq_dec Register.dot Register.at_sign); [discriminate|]. lia.
  - intros c Hc. apply in_app_or in Hc. destruct Hc as [Hc|[<-|Hc]]; auto.
    apply in_app_or in Hc. destruct Hc as [Hc|[<-|Hc]]; auto.
Qed.

Lemma shaped_not_blank s : Register.shaped s -> JS.blank s = false.
Proof.
  intros (l1 & l2 & l3 & Heq & H1 & _).
  apply plain_run_true in H1. destruct H1 as [Hn Hp].
  destruct (JS.blank s) eqn:Eb; [|reflexivity].
  apply blank_all_space in Eb. rewrite Heq in Eb. destruct l1 as [|c l1]; [congruence|].
  simpl in Eb, Hp. apply andb_true_iff in Eb. destruct Eb as [Eb _].
  apply andb_true_iff in Hp. destruct Hp as [Hp _].
  unfold Register.plain in Hp. rewrite Eb in Hp. discriminate.
Qed.

Lemma validateForm_None f :
  Register.validateForm f = None <->
  JS.blank (Register.name f) = false /\
  Register.shaped (Register.email f) /\
  6 <= JS.length (Register.password f) /\
  Register.password f = Register.confirmPassword f.
Proof.
  unfold Register.validateForm.
  pose proof (email_re_shaped (Register.email f)) as Hre.
  destruct (JS.blank (Register.name f)) eqn:En.
  { split; [discriminate|]. intros [H _]. discriminate. }
  destruct (JS.blank (Register.email f)) eqn:Ee.
  { split; [discriminate|]. intros (_ & Hs & _).
    apply shaped_not_blank in Hs. congruence. }
  destruct (Register.email_re (Register.email f)) eqn:Er; simpl.
  2:{ split; [discriminate|]. intros (_ & Hs & _).
      apply Hre in Hs. discriminate. }
  destruct (Nat.ltb_spec (JS.length (Register.password f)) 6).
  { split; [discriminate|]. intros (_ & _ & Hl & _). lia. }
  destruct (String.eqb_spec (Register.password f)
              (Register.confirmPassword f)); simpl.
  - split; [|reflexivity]. intros _. repeat split; auto.
    apply Hre. reflexivity.
  - split; [discriminate|]. intros (_ & _ & _ & Hp). contradiction.
Qed.

(** [register] is called exactly when the form is valid, that is when the
    name holds a code unit that is not white space, the e-mail address
    has the shape above, the
    password has six code units or more and is repeated exactly; the call
    carries the fields as typed.  An invalid form only sets the error
    text. *)
Theorem registration_is_sent_only_when_valid
    (answer : Register.Answer) (st : Register.State) :
  (Register.validateForm (Register.formData st) = None <->
     (exists u, In u (JS.units (Register.name (Register.formData st))) /\
                JS.is_space u = false) /\
     Register.shaped (Register.email (Register.formData st)) /\
     6 <= JS.length (Register.password (Register.formData st)) /\
     Register.password (Register.formData st)
       = Register.confirmPassword (Register.formData st)) /\
  (Register.validateForm (Register.formData st) = None ->
     Register.requests (Register.handleSubmit answer st)
       = (Register.requests st ++
            [ {| Register.p_name := Register.name (Register.formData st);
                 Register.p_email := Register.email (Register.formData st);
                 Register.p_password :=
                   Register.password (Register.formData st);
                 Register.p_role := Register.role (Register.formData st) |} ])
         %list) /\
  (forall msg,
     Register.validateForm (Register.formData st) = Some msg ->
     Register.requests (Register.handleSubmit answer st)
       = Register.requests st /\
     Register.error (Register.handleSubmit answer st) = msg /\
     Register.success (Register.handleSubmit answer st)
       = Register.success st).
Proof.
  split; [rewrite <- not_blank_iff; apply validateForm_None|].
  unfold Register.handleSubmit. split.
  - intros ->. destruct answer; reflexivity.
  - intros msg ->. repeat split.
Qed.

(** ** FAQ administration ([Faqs.jsx]) *)

Lemma filter_other_ids id l :
  (forall f, In f l -> Faqs.faq_id f <> id) ->
  List.filter (fun faq => negb (String.eqb (Faqs.faq_id faq) id)) l = l.
Proof.
  induction l as [|f l IH]; intros H; simpl; [reflexivity|].
  destruct (String.eqb_spec (Faqs.faq_id f) id) as [E|E]; simpl.
  - exfalso. apply (H f); [left; reflexivity|exact E].
  - f_equal. apply IH. intros g Hg. apply H. right. exact Hg.
Qed.

(** Adding an FAQ and then deleting it again gives back the list as it
    was, provided the new id was not in use; and after any confirmed,
    successful deletion no FAQ with the deleted id is left while the
    others keep their order. *)
Theorem add_then_delete_restores_the_list
    (st : Faqs.State) (faq : Faqs.Faq) :
  JS.blank (Faqs.new_question st) = false ->
  JS.blank (Faqs.new_answer st) = false ->
  (forall f, In f (Faqs.faqs st) -> Faqs.faq_id f <> Faqs.faq_id faq) ->
  Faqs.faqs (Faqs.handleAddFaq (Faqs.Stored faq) st)
    = (Faqs.faqs st ++ [faq])%list /\
  Faqs.faqs
    (Faqs.handleDeleteFaq (Faqs.faq_id faq) true true
       (Faqs.handleAddFaq (Faqs.Stored faq) st))
    = Faqs.faqs st /\
  (forall id st0,
     (forall f, In f (Faqs.faqs (Faqs.handleDeleteFaq id true true st0))
                <-> In f (Faqs.faqs st0) /\ Faqs.faq_id f <> id)).
Proof.
  intros Hq Ha Hfresh.
  assert (Hadd : Faqs.faqs (Faqs.handleAddFaq (Faqs.Stored faq) st)
                 = (Faqs.faqs st ++ [faq])%list).
  { unfold Faqs.handleAddFaq. rewrite Hq, Ha. reflexivity. }
  split; [exact Hadd|]. split.
  - unfold Faqs.handleDeleteFaq. simpl. rewrite Hadd.
    rewrite List.filter_app. simpl. rewrite String.eqb_refl. simpl.
    rewrite app_nil_r. apply filter_other_ids. exact Hfresh.
  - intros id st0 f. unfold Faqs.handleDeleteFaq. simpl.
    rewrite List.filter_In, negb_true_iff.
    destruct (String.eqb_spec (Faqs.faq_id f) id); split; intros [H1 H2];
      split; auto; congruence.
Qed.

(** ** Quick actions and the retry countdown ([ChatWindow.jsx]) *)

Lemma handleSendMessage_of_itself reply st :
  ChatActions.handleSendMessage_of st reply st
    = Chat.handleSendMessage reply st.
Proof. reflexivity. Qed.

(** A quick action never sends its own text.  The [handleSendMessage]
    it schedules belongs to the render in which the button was drawn and
    still sees the box as it was: with a box that is empty or holds only
    white space that [trim] removes (or without a session id) nothing is
    sent and the action only appears in the box; with any other text in
    the box and a session id that text is sent and shown as the user's
    message, and the box is cleared again. *)
Theorem quick_action_sends_what_was_in_the_box
    (action : string) (reply : Chat.Reply) (st : Chat.State) :
  ((forall u, In u (JS.units (Chat.messageText st)) -> JS.is_space u = true)
   \/ JS.truthy (Chat.sessionId st) = false ->
     ChatActions.text_sent st = None /\
     ChatActions.sendQuickAction action reply st
       = ChatActions.setMessageText action st) /\
  ((exists u, In u (JS.units (Chat.messageText st)) /\
              JS.is_space u = false) /\
   JS.truthy (Chat.sessionId st) = true ->
     ChatActions.text_sent st = Some (Chat.messageText st) /\
     Chat.messageText (ChatActions.sendQuickAction action reply st) = "" /\
     exists rest,
       Chat.messages (ChatActions.sendQuickAction action reply st)
         = (Chat.messages st ++ Chat.UserMsg (Chat.messageText st) :: rest)
           %list /\
       forall m, In m rest -> exists bot, m = Chat.BotMsg bot).
Proof.
  rewrite <- blank_iff, <- not_blank_iff.
  unfold ChatActions.text_sent, ChatActions.sendQuickAction,
    ChatActions.handleSendMessage_of.
  destruct (JS.blank (Chat.messageText st)),
    (JS.truthy (Chat.sessionId st)); simpl;
    try (split; [auto|intros [H1 H2]; discriminate]).
  split; [intros [H|H]; discriminate|]. intros _. split; [reflexivity|].
  destruct reply as [bot|]; simpl; (split; [reflexivity|]).
  - exists [Chat.BotMsg bot]. rewrite <- app_assoc. split; [reflexivity|].
    intros m [<-|[]]. eauto.
  - exists []. split; [reflexivity|]. intros m [].
Qed.

Lemma ticks_S sessionId n :
  ChatActions.ticks sessionId (S n)
    = ChatActions.tick sessionId (ChatActions.ticks sessionId n).
Proof. reflexivity. Qed.

Lemma ticks_5 sessionId :
  ChatActions.ticks sessionId 5
    = {| ChatActions.count := 0; ChatActions.retryCountdown := 0;
         ChatActions.connectionError := false;
         ChatActions.interval := false;
         ChatActions.fetches := if JS.truthy sessionId then 1 else 0 |}.
Proof. reflexivity. Qed.

Lemma ticks_from_5 sessionId n :
  5 <= n -> ChatActions.ticks sessionId n = ChatActions.ticks sessionId 5.
Proof.
  induction 1 as [|n Hn IH]; [reflexivity|].
  rewrite ticks_S, IH, ticks_5. reflexivity.
Qed.

Lemma ticks_before_5 sessionId n :
  n < 5 ->
  ChatActions.ticks sessionId n
    = {| ChatActions.count := 5 - Z.of_nat n;
         ChatActions.retryCountdown := 5 - Z.of_nat n;
         ChatActions.connectionError := true;
         ChatActions.interval := true;
         ChatActions.fetches := 0 |}.
Proof.
  intros Hn.
  do 5 (destruct n as [|n]; [reflexivity|]). lia.
Qed.

(** After a failed call the countdown shows 5, 4, 3, 2, 1 with the error
    banner up; the fifth firing clears the banner, stops the interval and
    fetches the messages once, if there is a session id; later firings
    change nothing.  The progress bar stays between 0 and 100 per cent
    throughout. *)
Theorem retry_fetches_once_after_five_ticks
    (sessionId : JS.nullable) (n : nat) :
  (n < 5 ->
     ChatActions.retryCountdown (ChatActions.ticks sessionId n)
       = (5 - Z.of_nat n)%Z /\
     ChatActions.connectionError (ChatActions.ticks sessionId n) = true /\
     ChatActions.interval (ChatActions.ticks sessionId n) = true /\
     ChatActions.fetches (ChatActions.ticks sessionId n) = 0) /\
  (5 <= n ->
     ChatActions.retryCountdown (ChatActions.ticks sessionId n) = 0%Z /\
     ChatActions.connectionError (ChatActions.ticks sessionId n) = false /\
     ChatActions.interval (ChatActions.ticks sessionId n) = false /\
     ChatActions.fetches (ChatActions.ticks sessionId n)
       = if JS.truthy sessionId then 1 else 0) /\
  (0 <= ChatActions.progress (ChatActions.ticks sessionId n) <= 100)%Q.
Proof.
  split; [|split].
  - intros Hn. rewrite ticks_before_5 by exact Hn. repeat split.
  - intros Hn. rewrite ticks_from_5, ticks_5 by exact Hn. repeat split.
  - destruct (Nat.lt_ge_cases n 5) as [Hn|Hn].
    + rewrite ticks_before_5 by exact Hn. unfold ChatActions.progress.
      cbn [ChatActions.retryCountdown].
      replace (5 - (5 - Z.of_nat n))%Z with (Z.of_nat n) by lia.
      do 5 (destruct n as [|n];
            [split; unfold Qle; simpl; lia|]). lia.
    + rewrite ticks_from_5, ticks_5 by exact Hn.
      split; unfold Qle; simpl; lia.
Qed.

(** ** The probability panel ([IntentEntityRecognizer.jsx]) *)

Lemma insert_perm x l : Permutation (Panel.insert x l) (x :: l).
Proof.
  induction l as [|y r IH]; simpl; [reflexivity|].
  destruct (Qle_bool (snd y) (snd x)); [reflexivity|].
  rewrite IH. apply perm_swap.
Qed.

Lemma sort_perm l : Permutation (Panel.sort l) l.
Proof.
  induction l as [|x l IH]; simpl; [reflexivity|].
  rewrite insert_perm, IH. reflexivity.
Qed.

Lemma insert_sorted x l :
  StronglySorted Panel.more_probable l ->
  StronglySorted Panel.more_probable (Panel.insert x l).
Proof.
  induction 1 as [|y r Hr IH Hy]; simpl.
  - constructor; constructor.
  - destruct (Qle_bool (snd y) (snd x)) eqn:E.
    + apply Qle_bool_iff in E. constructor; [constructor; assumption|].
      constructor; [exact E|].
      rewrite List.Forall_forall in Hy |- *. intros z Hz.
      unfold Panel.more_probable in *. specialize (Hy z Hz).
      eapply Qle_trans; eassumption.
    + constructor; [exact IH|].
      rewrite List.Forall_forall in Hy |- *. intros z Hz.
      apply (Permutation_in _ (insert_perm x r)) in Hz.
      destruct Hz as [<-|Hz]; [|auto].
      unfold Panel.more_probable. apply Qlt_le_weak, Qnot_le_lt.
      intros H. apply Qle_bool_iff in H. congruence.
Qed.

Lemma sort_sorted l : StronglySorted Panel.more_probable (Panel.sort l).
Proof.
  induction l as [|x l IH]; simpl; [constructor|].
  apply insert_sorted. exact IH.
Qed.

Lemma sorted_app_order l1 l2 :
  StronglySorted Panel.more_probable (l1 ++ l2)%list ->
  forall x y, In x l1 -> In y l2 -> Panel.more_probable x y.
Proof.
  induction l1 as [|a l1 IH]; simpl; intros Hs x y Hx Hy; [contradiction|].
  inversion Hs as [|? ? Hs' Ha]; subst.
  destruct Hx as [<-|Hx]; [|eauto].
  rewrite List.Forall_forall in Ha. apply Ha, in_or_app. right. exact Hy.
Qed.

Lemma insert_keeps_ties x l p :
  List.filter (fun e => Qeq_bool (snd e) p) (Panel.insert x l)
    = List.filter (fun e => Qeq_bool (snd e) p) (x :: l).
Proof.
  induction l as [|y r IH]; [reflexivity|].
  cbn [Panel.insert]. destruct (Qle_bool (snd y) (snd x)) eqn:E; [reflexivity|].
  cbn [List.filter] in IH |- *. rewrite IH.
  destruct (Qeq_bool (snd y) p) eqn:Ey, (Qeq_bool (snd x) p) eqn:Ex;
    try reflexivity.
  exfalso. apply Qeq_bool_iff in Ey, Ex.
  assert (H : Qle_bool (snd y) (snd x) = true).
  { apply Qle_bool_iff. rewrite Ey, Ex. apply Qle_refl. }
  congruence.
Qed.

Lemma sort_keeps_ties l p :
  List.filter (fun e => Qeq_bool (snd e) p) (Panel.sort l)
    = List.filter (fun e => Qeq_bool (snd e) p) l.
Proof.
  induction l as [|x l IH]; [reflexivity|].
  cbn [Panel.sort fold_right]. rewrite insert_keeps_ties.
  cbn [List.filter]. unfold Panel.sort in IH. rewrite IH. reflexivity.
Qed.

(** The panel draws the eight most probable intents, or all of them when
    there are fewer: the entries drawn and the entries cut off are
    together the entries received, no entry cut off is more probable than
    one that is drawn, the entries drawn stand by falling probability,
    and entries of equal probability keep the order in which they were
    received. *)
Theorem panel_draws_the_most_probable (r : Recognizer.Analysis) :
  Permutation (Panel.shown r ++ Panel.hidden r)%list
    (Recognizer.all_probabilities r) /\
  length (Panel.shown r)
    = Nat.min 8 (length (Recognizer.all_probabilities r)) /\
  (forall x y, In x (Panel.shown r) -> In y (Panel.hidden r) ->
     (snd y <= snd x)%Q) /\
  StronglySorted (fun x y => (snd y <= snd x)%Q) (Panel.shown r) /\
  (forall p,
     List.filter (fun e => Qeq_bool (snd e) p)
       (Panel.shown r ++ Panel.hidden r)%list
     = List.filter (fun e => Qeq_bool (snd e) p)
         (Recognizer.all_probabilities r)).
Proof.
  unfold Panel.shown, Panel.hidden.
  pose proof (sort_sorted (Recognizer.all_probabilities r)) as Hs.
  pose proof (sort_perm (Recognizer.all_probabilities r)) as Hp.
  split; [|split; [|split; [|split]]].
  - rewrite firstn_skipn. exact Hp.
  - rewrite List.length_firstn, (Permutation_length Hp). reflexivity.
  - rewrite <- (firstn_skipn 8) in Hs. apply (sorted_app_order _ _ Hs).
  - rewrite <- (firstn_skipn 8) in Hs.
    clear Hp. revert Hs.
    generalize (firstn 8 (Panel.sort (Recognizer.all_probabilities r))).
    intros l1 Hs. induction l1 as [|a l1 IH]; [constructor|].
    simpl in Hs. inversion Hs as [|? ? Hs' Ha]; subst.
    constructor; [auto|].
    rewrite List.Forall_forall in Ha |- *. intros z Hz.
    apply Ha, in_or_app. left. exact Hz.
  - intros p. rewrite firstn_skipn. apply sort_keeps_ties.
Qed.

(** ** The table of recent queries ([AdminDashboard.jsx]) *)


(** ** The start-up script, from its first line to [wait] *)

Lemma foreground_succeeds env cmds log :
  (forall c, In c cmds -> Startup.succeeds env c = true) ->
  Startup.foreground env cmds log = ((log ++ cmds)%list, true).
Proof.
  revert log. induction cmds as [|d cmds IH]; intros log H; simpl.
  - rewrite app_nil_r. reflexivity.
  - rewrite (H d) by (left; reflexivity).
    rewrite IH by (intros c Hc; apply H; right; exact Hc).
    rewrite <- app_assoc. reflexivity.
Qed.

(** The script gets as far as its services exactly when [python3],
    [node] and [npm] are found and every set-up command succeeds; it has
    then run the set-up commands in order and launched the three services
    after them.  Training is one of the set-up commands exactly when there
    is no [nlu_model] directory, creating the virtual environment exactly
    when there is no [venv] directory. *)
Theorem script_reaches_the_services (env : Startup.Env)
    (log : list Startup.Command) :
  (Startup.run env = Startup.Running log <->
     Startup.python3 env = true /\ Startup.node env = true /\
     Startup.npm env = true /\
     (forall c, In c (Startup.setup env) -> Startup.succeeds env c = true) /\
     log = (Startup.setup env ++ Startup.background)%list) /\
  (In Startup.TrainModel (Startup.setup env)
     <-> Startup.nlu_model_dir env = false) /\
  (In Startup.CreateVenv (Startup.setup env)
     <-> Startup.venv_dir env = false).
Proof.
  split; [|split].
  - unfold Startup.run.
    destruct (Startup.python3 env); simpl;
      [|split; [discriminate|intros (H & _); discriminate]].
    destruct (Startup.node env); simpl;
      [|split; [discriminate|intros (_ & H & _); discriminate]].
    destruct (Startup.npm env); simpl;
      [|split; [discriminate|intros (_ & _ & H & _); discriminate]].
    split.
    + destruct (Startup.foreground env (Startup.setup env) [])
        as [log' ok] eqn:Ef.
      destruct ok; [|discriminate]. intros [= <-].
      pose proof (foreground_all_succeed env _ _ _ Ef) as Hall.
      rewrite (foreground_succeeds env _ [] Hall) in Ef.
      injection Ef as <-. auto.
    + intros (_ & _ & _ & Hall & ->).
      rewrite (foreground_succeeds env _ [] Hall). reflexivity.
  - unfold Startup.setup.
    destruct (Startup.venv_dir env), (Startup.nlu_model_dir env); simpl;
      split; intros H; try discriminate; auto 10;
      intuition discriminate.
  - unfold Startup.setup.
    destruct (Startup.venv_dir env), (Startup.nlu_model_dir env); simpl;
      split; intros H; try discriminate; auto 10;
      intuition discriminate.
Qed.

(** ** The method badge for any method name *)

(** Every method name gets one of the three badges, the names of the
    members that every object inherits apart, for which [badges[method]]
    is not a badge: [Machine Learning] only for [ml], [Rule-based] only
    for [rule], and [Fallback] for [fallback] and for every name the table
    does not know. *)
Theorem every_method_gets_a_badge (method : string) :
  ~ In method Panel.inherited ->
  exists b,
    Recognizer.getMethodBadge method = Some b /\
    (Recognizer.badge_text b = "Machine Learning" <-> method = "ml") /\
    (Recognizer.badge_text b = "Rule-based" <-> method = "rule") /\
    (Recognizer.badge_text b = "Fallback"
       <-> method <> "ml" /\ method <> "rule").
Proof.
  intros _.
  destruct (String.eqb_spec method "ml") as [->|Hm].
  { eexists. split; [reflexivity|]. simpl.
    repeat split; try discriminate; intros [H _]; congruence. }
  destruct (String.eqb_spec method "rule") as [->|Hr].
  { eexists. split; [reflexivity|]. simpl.
    repeat split; try discriminate; intros [_ H]; congruence. }
  destruct (String.eqb_spec method "fallback") as [->|Hf].
  { eexists. split; [reflexivity|]. simpl.
    repeat split; discriminate. }
  rewrite (unknown_method_gets_fallback_badge method Hm Hr Hf).
  eexists. split; [reflexivity|]. simpl.
  repeat split; try discriminate; auto; congruence.
Qed.

(** * The further properties on the sample data *)


Lemma rajesh_lands_on_the_chat :
  Login.navigated
    (Login.handleSubmit_chat
       (Login.Accepted (Store.token rajesh_session) rajesh) signed_out)
    = Some "/chat" /\
  App.settle 1 (Store.token rajesh_session) (Some "user") "/chat"
    = Some ("/chat", App.ChatWindow).
Proof.
  apply (sign_in_lands_on_the_chat
           (Store.token rajesh_session) rajesh signed_out);
    [reflexivity|discriminate].
Defined.


Lemma expired_session_sends_no_token :
  Request.onRequest whole_entry
    (fst (Api.onRejected expired_session chat_page)) post_message
    = post_message.
Proof.
  apply (no_token_is_attached_after_a_401
           whole_entry expired_session chat_page post_message).
  reflexivity.
Defined.

Lemma rajesh_token_is_attached :
  Request.headers
    (Request.onRequest whole_entry
       (Store.persist token_only rajesh_session chat_page) post_message)
    !! "Authorization"
    = Some "Bearer eyJhbGciOi".
Proof.
  destruct (persisted_token_is_attached whole_entry token_only
              rajesh_session chat_page post_message) as [H _];
    [discriminate|reflexivity|].
  exact (proj1 (H eq_refl)).
Defined.

Lemma priya_is_registered :
  Register.requests (Register.handleSubmit Register.Registered priya_registers)
    = [ {| Register.p_name := "Priya Sharma";
           Register.p_email := "priya@securebank.com";
           Register.p_password := "user123";
           Register.p_role := "user" |} ].
Proof.
  destruct (registration_is_sent_only_when_valid
              Register.Registered priya_registers) as (_ & H & _).
  exact (H eq_refl).
Defined.

Lemma card_faq_added_and_deleted :
  Faqs.faqs
    (Faqs.handleDeleteFaq "f2" true true
       (Faqs.handleAddFaq (Faqs.Stored card_faq) faq_form))
    = Faqs.faqs faq_form.
Proof.
  destruct (add_then_delete_restores_the_list faq_form card_faq)
    as (_ & H & _); [reflexivity|reflexivity| |exact H].
  intros f [<-|[]]. discriminate.
Defined.

Lemma quick_action_on_an_empty_box :
  ChatActions.sendQuickAction "Check my balance"
    (Chat.Answered transfer_done) empty_box
    = ChatActions.setMessageText "Check my balance" empty_box.
Proof.
  destruct (quick_action_sends_what_was_in_the_box "Check my balance"
              (Chat.Answered transfer_done) empty_box) as [H _].
  apply H. left. intros u Hu. vm_compute in Hu. destruct Hu.
Defined.

Lemma regex_method_gets_the_fallback_badge :
  exists b, Recognizer.getMethodBadge "regex" = Some b /\
            Recognizer.badge_text b = "Fallback".
Proof.
  destruct (every_method_gets_a_badge "regex") as (b & Hb & _ & _ & Hf).
  - simpl. intuition discriminate.
  - exists b. split; [exact Hb|]. apply Hf. split; discriminate.
Defined.
